(** * nataili model manager: availability, tainting and download state machine

    A shallow embedding of [src/nataili/model_manager/modelmanager.py]
    (class [ModelManager]) and of the registry insertion performed by
    [BLIPModelManager.__call__] in [blip.py].

    Python objects are modelled as follows.
    - A [dict] used as a catalog or registry is a [gmap] with string keys.
      Python iterates a dict in insertion order, the model in the
      enumeration order of the map ([map_to_list]); only the order of names
      inside the availability lists depends on that choice.
    - A dict with optional keys (a download step, a file description) is a
      record with one [option] (or presence flag) per key.
    - The manager's attributes, the process environment, the outside world
      (disk, network) and the log are threaded explicitly through a state
      and exception monad.  A raised exception keeps the state reached so
      far, as in Python.
    - The operating system, the network, git, zip archives, [hashlib.md5]
      and [str.format] are not code of the repository: they are an
      interface ([World]) the development is parameterised by.  Of their
      failures the interface has those the code handles or the properties
      mention: a failing request, a file that cannot be opened, and what
      [shutil.rmtree] can raise.

    [get_filtered_models], [get_filtered_model_names], [download_all_models]
    and [download_all] select models by metadata keys that the entries here
    do not carry: they are modelled over a parameter that reads a key of an
    entry.  The progress bar of [download_file] is left out. *)

From Stdlib Require Import Strings.Byte Strings.Ascii Strings.String.
From stdpp Require Import gmap strings list fin_maps pretty.

Local Open Scope string_scope.
Local Open Scope list_scope.

(** ** [os.path] on POSIX path strings *)

Module PosixPath.

Definition sep : ascii := "/"%char.

Definition is_sep (c : ascii) : bool := bool_decide (c = sep).

Definition starts_with_sep (p : string) : bool :=
  match p with
  | String c _ => is_sep c
  | EmptyString => false
  end.

Fixpoint ends_with_sep (p : string) : bool :=
  match p with
  | EmptyString => false
  | String c EmptyString => is_sep c
  | String _ rest => ends_with_sep rest
  end.

(** [posixpath.join(a, b)]: an absolute [b] discards [a]. *)
Definition join (a b : string) : string :=
  if starts_with_sep b then b
  else if bool_decide (a = "") || ends_with_sep a then a +:+ b
  else a +:+ "/" +:+ b.

Fixpoint drop_while (f : ascii → bool) (l : list ascii) : list ascii :=
  match l with
  | [] => []
  | c :: rest => if f c then drop_while f rest else l
  end.

(** [posixpath.dirname(p)]: [head = p[:p.rfind('/') + 1]], then the
    trailing separators of [head] are stripped unless it consists of
    separators only. *)
Definition dirname (p : string) : string :=
  let rhead := drop_while (λ c, negb (is_sep c)) (rev (list_ascii_of_string p)) in
  let rhead' := if forallb is_sep rhead then rhead else drop_while is_sep rhead in
  string_of_list_ascii (rev rhead').

End PosixPath.

(** ** Catalog entries (the JSON documents [db.json] and [db_dep.json]) *)

(** One element of [config.files]: a path below the base directory and an
    optional [md5sum]. *)
Record file_details := FileDetails {
  path : string;
  md5sum : option string;
}.

(** One element of a [post_process] list. *)
Record post_process := PostProcess {
  delete_ : option string;
}.

(** One element of [config.download].  Keys whose value the code never reads
    ([hf_auth], [manual], [git], [unzip]) are presence flags. *)
Record step := Step {
  file_path : option string;
  file_name : option string;
  file_url : option string;
  hf_auth_key : bool;
  manual : bool;
  file_content : option string;
  symlink_key : option string;
  git : bool;
  post_process_key : option (list post_process);
  unzip : bool;
}.

Record model_entry := ModelEntry {
  m_type : string;
  m_files : list file_details;
  m_download : list step;
}.

Record dependency_entry := DependencyEntry {
  d_files : list file_details;
  d_download : list step;
}.

(** An entry of [loaded_models]: the runtime object is opaque here. *)
Record loaded_entry := LoadedEntry {
  model_handle : nat;
  device : string;
}.

(** ** Exceptions, log records and observable events *)

Inductive exn :=
  | KeyError (key : string)
  | IndexError
  | TypeError (what : string)
  | ValueError (msg : string)
  | RuntimeError (msg : string)
  | UnboundLocalError (var : string)
  | FileNotFoundError (p : string)
  | ConnectionError (url : string)
  | PermissionError (p : string)
  | OSError (what : string).

Inductive event :=
  | Log (level msg : string)
  | HttpGet (url : string)
  | Input.

Definition remote_models : string :=
  "https://raw.githubusercontent.com/Sygil-Dev/nataili-model-reference/main/db.json".
Definition remote_dependencies : string :=
  "https://raw.githubusercontent.com/Sygil-Dev/nataili-model-reference/main/db_dep.json".

(** ** The outside world *)

(** What [shutil.rmtree] did: the code catches [PermissionError] only. *)
Inductive rm_result :=
  | Removed
  | PermissionDenied
  | RmFailed (e : exn).

Class World (W : Type) := {
  (** [os.path.exists] *)
  path_exists : W → string → bool;
  (** [open(p, "rb")] and the bytes read; [None] when the open fails *)
  read_file : W → string → option (list byte);
  (** [os.makedirs(p, exist_ok=True)] *)
  makedirs : W → string → W;
  (** [open(p, "w" / "wb")] followed by the writes *)
  write_file : W → string → list byte → W;
  (** [os.symlink(src, dst)] *)
  os_symlink : W → string → string → W;
  (** [os.remove] *)
  os_remove : W → string → W;
  (** [shutil.move(src, dst)] *)
  shutil_move : W → string → string → W;
  (** [shutil.rmtree] *)
  shutil_rmtree : W → string → W * rm_result;
  (** [zipfile.ZipFile(p).extractall(dest)] *)
  zip_extractall : W → string → string → W;
  (** [git.Git(dir).clone(url)] *)
  git_clone : W → string → string → W;
  (** [requests.get(url)]: the body, [None] on a transport failure *)
  http_get : W → string → option (list byte);
  (** [r.json()] on the two reference documents, [None] when it raises *)
  parse_models : list byte → option (gmap string model_entry);
  parse_dependencies : list byte → option (gmap string dependency_entry);
  (** the bundled [db.json] and [db_dep.json], which the module already
      loaded once when it was imported *)
  bundled_models : W → gmap string model_entry;
  bundled_dependencies : W → gmap string dependency_entry;
  (** [os.path.expanduser('~')] *)
  home : W → string;
  (** [url.format(username=..., password=...)] *)
  format_url : string → string → string → string;
  (** [hashlib.md5]: initial state, [update], [hexdigest] *)
  md5_state : Type;
  md5_new : md5_state;
  md5_update : md5_state → list byte → md5_state;
  md5_hexdigest : md5_state → string;
  (** feeding a hash object piecewise is feeding it the concatenation *)
  md5_update_app : ∀ h a b, md5_update (md5_update h a) b = md5_update h (a ++ b);
  (** and feeding it nothing changes nothing *)
  md5_update_nil : ∀ h, md5_update h [] = h;
}.

(** ** Manager state and the state-and-exception monad *)

Section Manager.

Context {W : Type} `{World W}.

(** The attributes of a [ModelManager] instance, together with the process
    environment ([os.environ]), the outside world and the events observed
    so far (most recent last). *)
Record state := State {
  models : gmap string model_entry;
  dependencies : gmap string dependency_entry;
  available_models : list string;
  tainted_models : list string;
  available_dependencies : list string;
  loaded_models : gmap string loaded_entry;
  hf_auth : option (gmap string string);
  disable_voodoo : bool;
  model_base_path : string;
  environ : gmap string string;
  world : W;
  trace : list event;
}.

Definition set_models (v : gmap string model_entry) (s : state) : state :=
  State v (dependencies s) (available_models s) (tainted_models s)
    (available_dependencies s) (loaded_models s) (hf_auth s) (disable_voodoo s)
    (model_base_path s) (environ s) (world s) (trace s).
Definition set_available_models (v : list string) (s : state) : state :=
  State (models s) (dependencies s) v (tainted_models s)
    (available_dependencies s) (loaded_models s) (hf_auth s) (disable_voodoo s)
    (model_base_path s) (environ s) (world s) (trace s).
Definition set_tainted_models (v : list string) (s : state) : state :=
  State (models s) (dependencies s) (available_models s) v
    (available_dependencies s) (loaded_models s) (hf_auth s) (disable_voodoo s)
    (model_base_path s) (environ s) (world s) (trace s).
Definition set_available_dependencies (v : list string) (s : state) : state :=
  State (models s) (dependencies s) (available_models s) (tainted_models s)
    v (loaded_models s) (hf_auth s) (disable_voodoo s)
    (model_base_path s) (environ s) (world s) (trace s).
Definition set_loaded_models (v : gmap string loaded_entry) (s : state) : state :=
  State (models s) (dependencies s) (available_models s) (tainted_models s)
    (available_dependencies s) v (hf_auth s) (disable_voodoo s)
    (model_base_path s) (environ s) (world s) (trace s).
Definition set_hf_auth (v : option (gmap string string)) (s : state) : state :=
  State (models s) (dependencies s) (available_models s) (tainted_models s)
    (available_dependencies s) (loaded_models s) v (disable_voodoo s)
    (model_base_path s) (environ s) (world s) (trace s).
Definition set_environ (v : gmap string string) (s : state) : state :=
  State (models s) (dependencies s) (available_models s) (tainted_models s)
    (available_dependencies s) (loaded_models s) (hf_auth s) (disable_voodoo s)
    (model_base_path s) v (world s) (trace s).
Definition set_world (v : W) (s : state) : state :=
  State (models s) (dependencies s) (available_models s) (tainted_models s)
    (available_dependencies s) (loaded_models s) (hf_auth s) (disable_voodoo s)
    (model_base_path s) (environ s) v (trace s).
Definition set_trace (v : list event) (s : state) : state :=
  State (models s) (dependencies s) (available_models s) (tainted_models s)
    (available_dependencies s) (loaded_models s) (hf_auth s) (disable_voodoo s)
    (model_base_path s) (environ s) (world s) v.

(** The result of running a piece of code: a value or a raised exception. *)
Inductive outcome (A : Type) :=
  | Ret (a : A)
  | Raise (e : exn).
Global Arguments Ret {A} a.
Global Arguments Raise {A} e.

Definition M (A : Type) : Type := state → state * outcome A.

Definition ret {A} (a : A) : M A := λ s, (s, Ret a).
Definition raise {A} (e : exn) : M A := λ s, (s, Raise e).
Definition bind {A B} (m : M A) (f : A → M B) : M B :=
  λ s, match m s with
       | (s', Ret a) => f a s'
       | (s', Raise e) => (s', Raise e)
       end.

Definition gets {A} (f : state → A) : M A := λ s, (s, Ret (f s)).
Definition modify (f : state → state) : M unit := λ s, (f s, Ret tt).

Notation "'let!' x ':=' c1 'in' c2" := (bind c1 (λ x, c2))
  (at level 10, x name, c1 at level 100, c2 at level 200).
Notation "c1 >> c2" := (bind c1 (λ _, c2))
  (at level 100, c2 at level 200, right associativity).

(** [d[key]] on an optional key: [KeyError] when it is absent. *)
Definition subscript {A} (key : string) (o : option A) : M A :=
  match o with
  | Some a => ret a
  | None => raise (KeyError key)
  end.

(** Reading a local variable that may not have been assigned yet. *)
Definition local {A} (var : string) (o : option A) : M A :=
  match o with
  | Some a => ret a
  | None => raise (UnboundLocalError var)
  end.

(** [try: body except Exception: handler] *)
Definition try_except {A} (body : M A) (handler : exn → M A) : M A :=
  λ s, match body s with
       | (s', Raise e) => handler e s'
       | r => r
       end.

Definition emit (e : event) : M unit := modify (λ s, set_trace (trace s ++ [e]) s).
Definition logger (level msg : string) : M unit := emit (Log level msg).
Definition on_world (f : W → W) : M unit := modify (λ s, set_world (f (world s)) s).

(** ** Tainting and the registry *)

(** [l.remove(x)]: drops the first occurrence. *)
Fixpoint list_remove (x : string) (l : list string) : list string :=
  match l with
  | [] => []
  | y :: rest => if decide (x = y) then rest else y :: list_remove x rest
  end.

(** [x in l] *)
Definition mem (x : string) (l : list string) : bool := bool_decide (x ∈ l).

Definition taint_model (model_name : string) : M unit :=
  let! avail := gets available_models in
  if mem model_name avail then
    modify (λ s, set_available_models (list_remove model_name (available_models s)) s) >>
    modify (λ s, set_tainted_models (tainted_models s ++ [model_name]) s)
  else ret tt.

(** [names] is a list object of its own; the loop over the manager's own
    list of available models is [taint_models_live]. *)
Fixpoint taint_models (names : list string) : M unit :=
  match names with
  | [] => ret tt
  | model :: rest => taint_model model >> taint_models rest
  end.

Definition get_loaded_models : M (gmap string loaded_entry) := gets loaded_models.

Definition dict_keys {A} (d : gmap string A) : list string := (map_to_list d).*1.

Definition get_loaded_models_names : M (list string) :=
  gets (λ s, dict_keys (loaded_models s)).

Definition get_loaded_model (model_name : string) : M loaded_entry :=
  let! d := gets loaded_models in subscript model_name (d !! model_name).

Definition unload_model (model_name : string) : M bool :=
  let! d := gets loaded_models in
  if bool_decide (is_Some (d !! model_name)) then
    modify (λ s, set_loaded_models (delete model_name (loaded_models s)) s) >>
    ret true
  else ret false.

(** [for model in self.loaded_models: del self.loaded_models[model]].
    A dict iterator remembers the size of the dict when it is created and
    every [next] on it, the one that would end the loop included, first
    compares that size with the current one and raises [RuntimeError] when
    they differ. [keys] are the keys the iterator has not yielded yet. *)
Fixpoint unload_all_loop (used : nat) (keys : list string) : M unit :=
  let! d := gets loaded_models in
  if bool_decide (size d = used) then
    match keys with
    | [] => ret tt
    | model :: rest =>
        (if bool_decide (is_Some (d !! model)) then
           modify (λ s, set_loaded_models (delete model (loaded_models s)) s)
         else raise (KeyError model)) >>
        unload_all_loop used rest
    end
  else raise (RuntimeError "dictionary changed size during iteration").

Definition unload_all_models : M bool :=
  let! d := gets loaded_models in
  unload_all_loop (size d) (dict_keys d) >>
  ret true.

(** [BLIPModelManager.__call__], as far as the manager is concerned: the
    entry built by the loader is stored under the model's name. *)
Definition register (model_name : string) (e : loaded_entry) : M bool :=
  modify (λ s, set_loaded_models (<[model_name := e]> (loaded_models s)) s) >>
  ret true.

(** ** Credentials *)

(** Truth value of [hf_auth]: [None] and the empty dict are false. *)
Definition truthy (a : option (gmap string string)) : bool :=
  match a with
  | Some d => negb (bool_decide (d = ∅))
  | None => false
  end.

Definition set_authentication (auth : option (gmap string string)) : M unit :=
  let! current := gets hf_auth in
  if negb (truthy auth) && truthy current then ret tt
  else
    modify (set_hf_auth auth) >>
    match auth with
    | Some d =>
        if truthy auth then
          match d !! "password" with
          | Some pw => modify (λ s, set_environ (<["HUGGING_FACE_HUB_TOKEN" := pw]> (environ s)) s)
          | None => raise (TypeError "str expected, not NoneType")
          end
        else ret tt
    | None => ret tt
    end.

Definition has_authentication : M bool := gets (λ s, truthy (hf_auth s)).

(** ** Catalog lookups *)

(** [self.models.get(model_name)]: [None] stands for Python's [None]. *)
Definition get_model (model_name : string) : M (option model_entry) :=
  gets (λ s, models s !! model_name).

Definition get_dependency (dependency_name : string) : M dependency_entry :=
  let! deps := gets dependencies in
  subscript dependency_name (deps !! dependency_name).

Definition get_model_files (model_name : string) : M (list file_details) :=
  let! ms := gets models in
  let! e := subscript model_name (ms !! model_name) in
  if bool_decide (m_type e = "diffusers") then ret []
  else ret (m_files e).

Definition get_dependency_files (dependency_name : string) : M (list file_details) :=
  let! deps := gets dependencies in
  let! e := subscript dependency_name (deps !! dependency_name) in
  ret (d_files e).

Definition get_model_download (model_name : string) : M (list step) :=
  let! ms := gets models in
  let! e := subscript model_name (ms !! model_name) in
  ret (m_download e).

Definition get_dependency_download (dependency_name : string) : M (list step) :=
  let! deps := gets dependencies in
  let! e := subscript dependency_name (deps !! dependency_name) in
  ret (d_download e).

Definition get_available_models : M (list string) := gets available_models.
Definition get_available_dependencies : M (list string) := gets available_dependencies.

(** ** Availability *)

Definition check_file_available (p : string) : M bool :=
  gets (λ s, path_exists (world s) (PosixPath.join (model_base_path s) p)).

(** The loop visits every file and never leaves early. *)
Fixpoint check_available_from (available : bool) (files : list file_details) : M bool :=
  match files with
  | [] => ret available
  | file :: rest =>
      let! present := check_file_available (path file) in
      check_available_from (if negb present then false else available) rest
  end.

Definition check_available (files : list file_details) : M bool :=
  check_available_from true files.

(** [[x for x in names if check_available(files_of(x))]], built by [append]. *)
Fixpoint collect_available (files_of : string → M (list file_details))
    (names : list string) (acc : list string) : M (list string) :=
  match names with
  | [] => ret acc
  | name :: rest =>
      let! files := files_of name in
      let! ok := check_available files in
      collect_available files_of rest (if ok then acc ++ [name] else acc)
  end.

(** The last statement of [init]: the shape of the stored credentials. *)
Definition check_hf_auth : M bool :=
  let! auth := gets hf_auth in
  match auth with
  | Some d =>
      if negb (bool_decide (is_Some (d !! "username"))) && negb (bool_decide (is_Some (d !! "password")))
      then raise (ValueError "hf_auth must contain username and password")
      else
        let! username := subscript "username" (d !! "username") in
        if bool_decide (username = "") then
          raise (ValueError "hf_auth must contain username and password")
        else
          let! password := subscript "password" (d !! "password") in
          if bool_decide (password = "") then
            raise (ValueError "hf_auth must contain username and password")
          else ret true
  | None => ret true
  end.

Definition init : M bool :=
  let! deps := gets dependencies in
  let! dependencies_available := collect_available get_dependency_files (dict_keys deps) [] in
  modify (set_available_dependencies dependencies_available) >>
  let! ms := gets models in
  let! models_available := collect_available get_model_files (dict_keys ms) [] in
  modify (set_available_models models_available) >>
  check_hf_auth.

Definition check_model_available (model_name : string) : M bool :=
  let! ms := gets models in
  if negb (bool_decide (is_Some (ms !! model_name))) then ret false
  else
    let! files := get_model_files model_name in
    check_available files.

Definition check_dependency_available (dependency_name : string) : M bool :=
  let! deps := gets dependencies in
  if negb (bool_decide (is_Some (deps !! dependency_name))) then ret false
  else
    let! files := get_dependency_files dependency_name in
    check_available files.

(** ** Checksums *)

Definition chunk_size : nat := Z.to_nat 8192.

(** [while chunk := f.read(8192): file_hash.update(chunk)] over the bytes
    not read yet.  [fuel] bounds the number of reads; [None] when it does
    not suffice. *)
Fixpoint md5_stream (fuel : nat) (h : md5_state) (unread : list byte) : option md5_state :=
  match fuel with
  | 0 => None
  | S fuel' =>
      match take chunk_size unread with
      | [] => Some h
      | chunk => md5_stream fuel' (md5_update h chunk) (drop chunk_size unread)
      end
  end.

(** The file is opened under the path as the catalog has it, which is not
    joined with the base directory here.  One read per byte and a last,
    empty one are always enough. *)
Definition validate_file (fd : file_details) : M bool :=
  match md5sum fd with
  | Some expected =>
      let file_name := path fd in
      logger "debug" ("Getting md5sum of " +:+ file_name) >>
      let! w := gets world in
      match read_file w file_name with
      | None => raise (FileNotFoundError file_name)
      | Some content =>
          match md5_stream (S (length content)) md5_new content with
          | Some file_hash =>
              if negb (bool_decide (expected = md5_hexdigest file_hash)) then ret false
              else ret true
          | None => raise (RuntimeError "md5_stream: out of fuel")
          end
      end
  | None => ret true
  end.

Fixpoint validate_files (files : list file_details) : M bool :=
  match files with
  | [] => ret true
  | fd :: rest =>
      let! present := check_file_available (path fd) in
      if negb present then ret false
      else
        let! valid := validate_file fd in
        if negb valid then ret false
        else validate_files rest
  end.

Definition validate_model (model_name : string) : M bool :=
  let! files := get_model_files model_name in
  validate_files files.

(** ** Downloads *)

Definition download_file (url file_path : string) : M unit :=
  let! base := gets model_base_path in
  let file_path := PosixPath.join base file_path in
  on_world (λ w, makedirs w (PosixPath.dirname file_path)) >>
  emit (HttpGet url) >>
  let! w := gets world in
  match http_get w url with
  | None => raise (ConnectionError url)
  | Some body => on_world (λ w, write_file w file_path body)
  end.

(** The local variables of the download loops that are assigned under a
    condition: [None] until the first assignment, and kept from one
    iteration to the next. *)
Record locals := Locals {
  download_url : option string;
  download_name : option string;
  download_path : option string;
}.

Definition unbound : locals := Locals None None None.

(** [self.hf_auth[key]] *)
Definition hf_auth_get (key : string) : M string :=
  let! auth := gets hf_auth in
  match auth with
  | None => raise (TypeError "'NoneType' object is not subscriptable")
  | Some d => subscript key (d !! key)
  end.

(** The assignments at the head of an iteration of [download_model]. *)
Definition bind_locals (d : step) (l : locals) : M locals :=
  let! base := gets model_base_path in
  let! url :=
    match file_url d with
    | Some url =>
        if hf_auth_key d then
          let! username := hf_auth_get "username" in
          let! password := hf_auth_get "password" in
          ret (Some (format_url url username password))
        else ret (Some url)
    | None => ret (download_url l)
    end in
  let name := match file_name d with Some n => Some n | None => download_name l end in
  let dir := match file_path d with
             | Some p => Some (PosixPath.join base p)
             | None => download_path l
             end in
  ret (Locals url name dir).

(** [post_process['delete'] = ...] writes into the catalog entry itself:
    the recipe returned by [get_model_download] is the list stored in
    [self.models]. *)
Definition store_delete (model_name : string) (i j : nat) (target : string) (s : state) : state :=
  let in_step (d : step) :=
    Step (file_path d) (file_name d) (file_url d) (hf_auth_key d) (manual d)
      (file_content d) (symlink_key d) (git d)
      (alter (λ _, PostProcess (Some target)) j <$> post_process_key d) (unzip d) in
  let in_entry (e : model_entry) :=
    ModelEntry (m_type e) (m_files e) (alter in_step i (m_download e)) in
  set_models (alter in_entry model_name (models s)) s.

Fixpoint run_post_process (model_name : string) (i j : nat) (pps : list post_process) : M unit :=
  match pps with
  | [] => ret tt
  | pp :: rest =>
      match delete_ pp with
      | Some rel =>
          let! base := gets model_base_path in
          let target := PosixPath.join base rel in
          modify (store_delete model_name i j target) >>
          logger "info" ("delete " +:+ target) >>
          let! w := gets world in
          let (w', r) := shutil_rmtree w target in
          on_world (λ _, w') >>
          match r with
          | Removed => ret tt
          | PermissionDenied =>
              logger "error" ("[!] Something went wrong while deleting the `" +:+ target
                              +:+ "`. Please delete it manually.") >>
              logger "error" "PermissionError: "
          | RmFailed e => raise e
          end
      | None => ret tt
      end >>
      run_post_process model_name i (S j) rest
  end.

(** [f"{download[i]['file_path']}/{download[i]['file_name']}"
    if "file_path" in download[i] else files[i]["path"]] *)
Definition target_path (files : list file_details) (i : nat) (d : step) : M string :=
  match file_path d with
  | Some p => let! n := subscript "file_name" (file_name d) in ret (p +:+ "/" +:+ n)
  | None =>
      match files !! i with
      | Some f => ret (path f)
      | None => raise IndexError
      end
  end.

(** One iteration of the loop of [download_model]. *)
Definition download_model_step (model_name : string) (files : list file_details)
    (i : nat) (d : step) (l : locals) : M locals :=
  let! rel := target_path files i d in
  let! base := gets model_base_path in
  let file_path := PosixPath.join base rel in
  let! l := bind_locals d l in
  if manual d then
    let! url := local "download_url" (download_url l) in
    let! dir := local "download_path" (download_path l) in
    let! name := local "download_name" (download_name l) in
    logger "warning" ("The model " +:+ model_name +:+ " requires manual download from " +:+ url
                      +:+ ". Please place it in " +:+ dir +:+ "/" +:+ name
                      +:+ " then press ENTER to continue...") >>
    emit Input >>
    ret l
  else
    match file_content d, symlink_key d with
    | Some content, _ =>
        logger "info" ("writing " +:+ content +:+ " to " +:+ file_path) >>
        let! dir := local "download_path" (download_path l) in
        on_world (λ w, makedirs w dir) >>
        let! name := local "download_name" (download_name l) in
        on_world (λ w, write_file w (PosixPath.join dir name) (list_byte_of_string content))
    | None, Some target =>
        logger "info" ("symlink " +:+ file_path +:+ " to " +:+ target) >>
        let target := PosixPath.join base target in
        let! dir := local "download_path" (download_path l) in
        on_world (λ w, makedirs w dir) >>
        let! name := local "download_name" (download_name l) in
        on_world (λ w, os_symlink w target (PosixPath.join dir name))
    | None, None =>
        if git d then
          let! url := local "download_url" (download_url l) in
          logger "info" ("git clone " +:+ url +:+ " to " +:+ file_path) >>
          on_world (λ w, makedirs w file_path) >>
          on_world (λ w, git_clone w file_path url) >>
          match post_process_key d with
          | Some pps => run_post_process model_name i 0 pps
          | None => ret tt
          end
        else
          let! present := check_file_available file_path in
          let! tainted := gets tainted_models in
          if negb present || mem model_name tainted then
            let! url := local "download_url" (download_url l) in
            logger "debug" ("Downloading " +:+ url +:+ " to " +:+ file_path) >>
            download_file url file_path
          else ret tt
    end >>
    ret l.

(** [for i in range(len(download))]: [steps] are the steps from index [i]
    on.  Iteration [i] writes to step [i] of the stored recipe only, so the
    steps still to come are the ones read before the loop. *)
Fixpoint download_model_loop (model_name : string) (files : list file_details)
    (i : nat) (steps : list step) (l : locals) : M unit :=
  match steps with
  | [] => ret tt
  | d :: rest =>
      let! l' := download_model_step model_name files i d l in
      download_model_loop model_name files (S i) rest l'
  end.

Definition download_model (model_name : string) : M bool :=
  let! avail := gets available_models in
  if mem model_name avail then
    logger "info" (model_name +:+ " is already available.") >>
    ret true
  else
    let! download := get_model_download model_name in
    let! files := get_model_files model_name in
    download_model_loop model_name files 0 download unbound >>
    let! valid := validate_model model_name in
    if negb valid then ret false
    else
      let! tainted := gets tainted_models in
      (if mem model_name tainted then
         modify (λ s, set_tainted_models (list_remove model_name (tainted_models s)) s)
       else ret tt) >>
      init >>
      ret true.

(** The assignments at the head of an iteration of [download_dependency]. *)
Definition bind_dependency_locals (base : string) (d : step) (l : locals) : locals :=
  Locals
    (match file_url d with Some u => Some u | None => download_url l end)
    (match file_name d with Some n => Some n | None => download_name l end)
    (match file_path d with
     | Some p => Some (PosixPath.join base p)
     | None => download_path l
     end).

(** One iteration of the loop of [download_dependency], for a step without
    the [git] key. *)
Definition download_dependency_step (files : list file_details)
    (i : nat) (d : step) (l : locals) : M locals :=
  let! rel :=
    match files !! i with
    | Some f => ret (path f)
    | None => raise IndexError
    end in
  let! base := gets model_base_path in
  let file_path := PosixPath.join base rel in
  let l := bind_dependency_locals base d l in
  let! name := local "download_name" (download_name l) in
  logger "debug" name >>
  (if unzip d then
     let zip_path := PosixPath.join base ("temp/" +:+ name +:+ ".zip") in
     on_world (λ w, makedirs w (PosixPath.join base "temp")) >>
     let! url := local "download_url" (download_url l) in
     download_file url zip_path >>
     logger "info" ("unzip " +:+ zip_path) >>
     on_world (λ w, zip_extractall w zip_path "temp/") >>
     let! dir := local "download_path" (download_path l) in
     logger "info" ("move temp/" +:+ name +:+ "-main/" +:+ name +:+ " to " +:+ dir) >>
     on_world (λ w, shutil_move w (base +:+ "/temp/" +:+ name +:+ "-main/" +:+ name) dir) >>
     logger "info" ("delete " +:+ zip_path) >>
     on_world (λ w, os_remove w zip_path) >>
     logger "info" ("delete temp/" +:+ name +:+ "-main/") >>
     let target := base +:+ "/temp/" +:+ name +:+ "-main" in
     let! w := gets world in
     let (w', r) := shutil_rmtree w target in
     on_world (λ _, w') >>
     match r with
     | Removed => ret tt
     | PermissionDenied => raise (PermissionError target)
     | RmFailed e => raise e
     end
   else
     let! present := check_file_available file_path in
     if negb present then
       logger "init" (file_path +:+ " Downloading") >>
       let! url := local "download_url" (download_url l) in
       download_file url file_path
     else ret tt) >>
  ret l.

(** The loop of [download_dependency]; a step with the [git] key ends it
    ([break]). *)
Fixpoint download_dependency_loop (files : list file_details)
    (i : nat) (steps : list step) (l : locals) : M unit :=
  match steps with
  | [] => ret tt
  | d :: rest =>
      if git d then logger "warning" "git download not implemented yet"
      else
        let! l' := download_dependency_step files i d l in
        download_dependency_loop files (S i) rest l'
  end.

Definition download_dependency (dependency_name : string) : M bool :=
  let! avail := gets available_dependencies in
  if mem dependency_name avail then
    logger "info" (dependency_name +:+ " is already installed.") >>
    ret true
  else
    let! download := get_dependency_download dependency_name in
    let! files := get_dependency_files dependency_name in
    download_dependency_loop files 0 download unbound >>
    init >>
    ret true.

(** [for x in names: if not check(x): download(x)], shared by
    [download_all_dependencies] and [download_all_models]. *)
Fixpoint download_each (check download : string → M bool) (what : string)
    (names : list string) : M unit :=
  match names with
  | [] => ret tt
  | name :: rest =>
      let! ok := check name in
      (if negb ok then
         logger "init" (name +:+ " Downloading") >> download name >> ret tt
       else logger "info" (name +:+ " is already " +:+ what +:+ ".")) >>
      download_each check download what rest
  end.

Definition download_all_dependencies : M bool :=
  let! deps := gets dependencies in
  download_each check_dependency_available download_dependency "installed" (dict_keys deps) >>
  ret true.

Definition check_all_available : M bool :=
  let fix all_ok (check : string → M bool) (names : list string) : M bool :=
    match names with
    | [] => ret true
    | name :: rest =>
        let! ok := check name in
        if negb ok then ret false else all_ok check rest
    end in
  let! ms := gets models in
  let! models_ok := all_ok check_model_available (dict_keys ms) in
  if negb models_ok then ret false
  else
    let! deps := gets dependencies in
    all_ok check_dependency_available (dict_keys deps).

(** ** Construction *)

(** The attributes before [__init__] has assigned them. *)
Definition blank (w : W) (env : gmap string string) : state :=
  State ∅ ∅ [] [] [] ∅ None true "" env w [].

Definition set_dependencies (v : gmap string dependency_entry) (s : state) : state :=
  State (models s) v (available_models s) (tainted_models s)
    (available_dependencies s) (loaded_models s) (hf_auth s) (disable_voodoo s)
    (model_base_path s) (environ s) (world s) (trace s).
Definition set_disable_voodoo (v : bool) (s : state) : state :=
  State (models s) (dependencies s) (available_models s) (tainted_models s)
    (available_dependencies s) (loaded_models s) (hf_auth s) v
    (model_base_path s) (environ s) (world s) (trace s).
Definition set_model_base_path (v : string) (s : state) : state :=
  State (models s) (dependencies s) (available_models s) (tainted_models s)
    (available_dependencies s) (loaded_models s) (hf_auth s) (disable_voodoo s)
    v (environ s) (world s) (trace s).

(** [requests.get(url)] *)
Definition requests_get (url : string) : M (list byte) :=
  emit (HttpGet url) >>
  let! w := gets world in
  match http_get w url with
  | Some body => ret body
  | None => raise (ConnectionError url)
  end.

Definition load_bundled_models : M unit :=
  modify (λ s, set_models (bundled_models (world s)) s).
Definition load_bundled_dependencies : M unit :=
  modify (λ s, set_dependencies (bundled_dependencies (world s)) s).

(** The body of [__init__]. *)
Definition constructor (base : option string) (auth : option (gmap string string))
    (download disable : bool) : M unit :=
  (if download then
     try_except
       (logger "init" "Model Reference: Downloading" >>
        let! r := requests_get remote_models in
        match parse_models r with
        | Some ms => modify (set_models ms)
        | None => raise (ValueError "r.json()")
        end >>
        let! r := requests_get remote_dependencies in
        load_bundled_dependencies >>
        logger "init_ok" "Model Reference: OK")
       (λ _,
        logger "init_err" "Model Reference: Download Error" >>
        load_bundled_models >>
        load_bundled_dependencies >>
        logger "init_warn" "Model Reference: Local")
   else
     load_bundled_models >>
     load_bundled_dependencies) >>
  modify (set_available_models []) >>
  modify (set_tainted_models []) >>
  modify (set_available_dependencies []) >>
  modify (set_loaded_models ∅) >>
  modify (set_hf_auth None) >>
  set_authentication auth >>
  modify (set_disable_voodoo disable) >>
  let! w := gets world in
  modify (set_model_base_path
            (match base with
             | Some p => if bool_decide (p = "") then PosixPath.join (home w) ".nataili" else p
             | None => PosixPath.join (home w) ".nataili"
             end)) >>
  let! p := gets model_base_path in
  if negb (path_exists w p) then on_world (λ w, makedirs w p) else ret tt.

(** [ModelManager(model_base_path, hf_auth, download, disable_voodoo)] in
    the world [w]: the state of the new object, or the exception. *)
Definition new (w : W) (env : gmap string string) (base : option string)
    (auth : option (gmap string string)) (download disable : bool) : state * outcome unit :=
  constructor base auth download disable (blank w env).

(** ** Reachable states *)

(** The calls a client can make on a manager. ([download_all_models] and
    [download_all] run [download_model] and [download_dependency] in
    sequence and reach no state these calls do not reach.) *)
Inductive call :=
  | Call_init
  | Call_set_authentication (auth : option (gmap string string))
  | Call_unload_model (model_name : string)
  | Call_unload_all_models
  | Call_taint_model (model_name : string)
  | Call_taint_models (names : list string)
  | Call_validate_model (model_name : string)
  | Call_download_model (model_name : string)
  | Call_download_dependency (dependency_name : string)
  | Call_download_all_dependencies
  | Call_register (model_name : string) (e : loaded_entry).

(** The state a call leaves behind, whether it returns or raises. *)
Definition run (c : call) (s : state) : state :=
  match c with
  | Call_init => (init s).1
  | Call_set_authentication auth => (set_authentication auth s).1
  | Call_unload_model n => (unload_model n s).1
  | Call_unload_all_models => (unload_all_models s).1
  | Call_taint_model n => (taint_model n s).1
  | Call_taint_models ns => (taint_models ns s).1
  | Call_validate_model n => (validate_model n s).1
  | Call_download_model n => (download_model n s).1
  | Call_download_dependency n => (download_dependency n s).1
  | Call_download_all_dependencies => (download_all_dependencies s).1
  | Call_register n e => (register n e s).1
  end.

(** A manager is reachable when a constructor call returned it, and stays
    so under every call and under any change of the disk or the network
    made from outside. *)
Inductive reachable : state → Prop :=
  | reachable_new w env base auth download disable s :
      new w env base auth download disable = (s, Ret tt) → reachable s
  | reachable_call c s : reachable s → reachable (run c s)
  | reachable_world w s : reachable s → reachable (set_world w s).

Definition exclusive (s : state) : Prop :=
  ∀ name, ¬ (name ∈ available_models s ∧ name ∈ tainted_models s).

(** The calls that recompute the availability lists from the disk. *)
Definition recomputes (c : call) : bool :=
  match c with
  | Call_init | Call_download_model _ | Call_download_dependency _
  | Call_download_all_dependencies => true
  | _ => false
  end.

(** ** Views of a state used to state the properties *)

(** The file [p] of the catalog exists below the base directory. *)
Definition present (s : state) (p : string) : bool :=
  path_exists (world s) (PosixPath.join (model_base_path s) p).

Definition files_present (s : state) (files : list file_details) : bool :=
  forallb (λ f, present s (path f)) files.

(** The file list [get_model_files] resolves for an entry. *)
Definition resolved_files (e : model_entry) : list file_details :=
  if bool_decide (m_type e = "diffusers") then [] else m_files e.

Definition model_present (s : state) (name : string) : bool :=
  match models s !! name with
  | Some e => files_present s (resolved_files e)
  | None => false
  end.

Definition dependency_present (s : state) (name : string) : bool :=
  match dependencies s !! name with
  | Some e => files_present s (d_files e)
  | None => false
  end.

(** The state [init] leaves, whether it returns or raises. *)
Definition after_init (s : state) : state :=
  set_available_models
    (filter (λ name, Is_true (model_present s name)) (dict_keys (models s)))
    (set_available_dependencies
       (filter (λ name, Is_true (dependency_present s name)) (dict_keys (dependencies s)))
       s).

(** What the credential check of [init] answers for stored credentials. *)
Definition credentials_outcome (auth : option (gmap string string)) : outcome bool :=
  match auth with
  | None => Ret true
  | Some d =>
      match d !! "username", d !! "password" with
      | None, None => Raise (ValueError "hf_auth must contain username and password")
      | None, Some _ => Raise (KeyError "username")
      | Some u, p =>
          if bool_decide (u = "") then
            Raise (ValueError "hf_auth must contain username and password")
          else
            match p with
            | None => Raise (KeyError "password")
            | Some p =>
                if bool_decide (p = "") then
                  Raise (ValueError "hf_auth must contain username and password")
                else Ret true
            end
      end
  end.

(** The URLs requested so far, oldest first. *)
Definition http_requests (t : list event) : list string :=
  omap (λ e, match e with HttpGet url => Some url | _ => None end) t.

(** A plain or authenticated fetch step: it has a URL and none of the keys
    that select another branch of [download_model]. *)
Definition is_fetch_step (d : step) : bool :=
  bool_decide (is_Some (file_url d)) && negb (manual d)
  && bool_decide (file_content d = None) && bool_decide (symlink_key d = None)
  && negb (git d).

(** What a catalog entry says about type and required files. *)
Definition files_view (e : option model_entry) : option (string * list file_details) :=
  (λ e, (m_type e, m_files e)) <$> e.

(** [s] differs from [s0] at most in the world, the log, the environment
    and the download recipes of the model catalog. *)
Definition frame (s0 s : state) : Prop :=
  available_models s = available_models s0
  ∧ tainted_models s = tainted_models s0
  ∧ available_dependencies s = available_dependencies s0
  ∧ loaded_models s = loaded_models s0
  ∧ hf_auth s = hf_auth s0
  ∧ model_base_path s = model_base_path s0
  ∧ dependencies s = dependencies s0
  ∧ ∀ name, files_view (models s !! name) = files_view (models s0 !! name).

(** Every state a computation leaves satisfies [P] when it started in one
    that does. *)
Definition preserves {A} (P : state → Prop) (m : M A) : Prop :=
  ∀ s, P s → P (m s).1.

(** [P] does not depend on the log. *)
Definition log_stable (P : state → Prop) : Prop :=
  ∀ s t, P s → P (set_trace t s).

(** [P] does not depend on the log, the world, or the [delete] targets
    stored in the download recipes. *)
Definition stable (P : state → Prop) : Prop :=
  log_stable P
  ∧ (∀ s w, P s → P (set_world w s))
  ∧ (∀ s name i j target, P s → P (store_delete name i j target s)).

(** No name is listed twice as available. *)
Definition available_NoDup (s : state) : Prop := NoDup (available_models s).

(** The hex digest of a whole content. *)
Definition md5_hex (content : list byte) : string :=
  md5_hexdigest (md5_update md5_new content).

End Manager.

Arguments state : clear implicits.

Notation "'let!' x ':=' c1 'in' c2" := (bind c1 (λ x, c2))
  (at level 10, x name, c1 at level 100, c2 at level 200).
Notation "c1 >> c2" := (bind c1 (λ _, c2))
  (at level 100, c2 at level 200, right associativity).

(** ** Filtering by metadata, bulk downloads and the BLIP loader *)

Section Metadata.

Context {W : Type} `{World W}.

(** The reference documents give an entry more keys than the manager
    reads.  [entry_get e key] is [e.get(key)], [value_eq] is Python's [==]
    on the values, and [py_true] is [True]. *)
Context {value : Type} (value_eq : value → value → bool)
  (entry_get : model_entry → string → value) (py_true : value).

(** One round of [get_filtered_models]: the entries of [iterating_models]
    whose [keyword] has the wanted value, inserted one by one into an
    empty dict. *)
Definition matching (keyword : string) (wanted : value)
    (iterating_models : gmap string model_entry) : gmap string model_entry :=
  map_fold
    (λ model e filtered_models,
       if value_eq (entry_get e keyword) wanted
       then <[model := e]> filtered_models
       else filtered_models)
    ∅ iterating_models.

(** [for keyword in kwargs], from the dict filtered so far. *)
Fixpoint filter_models (kwargs : list (string * value))
    (filtered_models : gmap string model_entry) : gmap string model_entry :=
  match kwargs with
  | [] => filtered_models
  | (keyword, wanted) :: rest => filter_models rest (matching keyword wanted filtered_models)
  end.

Definition get_filtered_models (kwargs : list (string * value)) : @M W (gmap string model_entry) :=
  gets (λ s, filter_models kwargs (models s)).

Definition get_filtered_model_names (kwargs : list (string * value)) : @M W (list string) :=
  let! filtered_models := get_filtered_models kwargs in
  ret (dict_keys filtered_models).

Definition download_all_models : @M W bool :=
  let! names := get_filtered_model_names [("download_all", py_true)] in
  download_each check_model_available download_model "downloaded" names >>
  ret true.

Definition download_all : @M W bool :=
  download_all_dependencies >>
  download_all_models >>
  ret true.

(** [blip_decoder(pretrained=..., vit=..., image_size=...)] builds the
    runtime object ([None] when it raises) and [to_device] stands for
    [.eval()], the optional [.half()] and [.to(device)]; both belong to the
    inference code and are opaque here. *)
Context (blip_decoder : W → string → string → Z → option nat)
  (to_device : nat → bool → string → nat).

(** [BLIPModelManager.__call__] *)
Definition BLIPModelManager_call (model_name precision device : string)
    (gpu_id blip_image_eval_size : Z) : @M W bool :=
  let vit := if bool_decide (model_name = "BLIP") then "base" else "large" in
  let! files := get_model_files model_name in
  let! first := match files !! 0 with
                | Some f => ret f
                | None => raise IndexError
                end in
  let model_path := path first in
  let device := if bool_decide (device = "cuda") then "cuda:" +:+ pretty gpu_id else "cpu" in
  let! w := gets world in
  let! model := match blip_decoder w model_path vit blip_image_eval_size with
                | Some m => ret m
                | None => raise (OSError "blip_decoder")
                end in
  let model := to_device model (negb (bool_decide (precision = "fp32"))) device in
  modify (λ s, set_loaded_models (<[model_name := LoadedEntry model device]> (loaded_models s)) s) >>
  ret true.

End Metadata.

Section Kept.

Context {W : Type} `{World W}.

(** What [download_model] never assigns. *)
Definition kept_by_download (s0 s : state W) : Prop :=
  loaded_models s = loaded_models s0
  ∧ hf_auth s = hf_auth s0
  ∧ environ s = environ s0
  ∧ model_base_path s = model_base_path s0
  ∧ dependencies s = dependencies s0
  ∧ ∀ name, files_view (models s !! name) = files_view (models s0 !! name).

End Kept.

(** ** The steps of a recipe one after the other, and a loop over the
    manager's own list *)

Section Steps.

Context {W : Type} `{World W}.

(** The iterations of the loop of [download_dependency] for [steps], from
    index [i] on, none of them a git step: every iteration starts from the
    local variables the one before it left. *)
Fixpoint dependency_steps (files : list file_details) (i : nat) (steps : list step)
    (l : locals) : @M W locals :=
  match steps with
  | [] => ret l
  | d :: rest =>
      let! l' := download_dependency_step files i d l in
      dependency_steps files (S i) rest l'
  end.

(** The same for the loop of [download_model]. *)
Fixpoint model_steps (model_name : string) (files : list file_details) (i : nat)
    (steps : list step) (l : locals) : @M W locals :=
  match steps with
  | [] => ret l
  | d :: rest =>
      let! l' := download_model_step model_name files i d l in
      model_steps model_name files (S i) rest l'
  end.

(** What [download_model] does once its loop is through: the validation,
    the removal from the tainted list and [init]. *)
Definition download_model_finish (model_name : string) : @M W bool :=
  let! valid := validate_model model_name in
  if negb valid then ret false
  else
    let! tainted := gets tainted_models in
    (if mem model_name tainted then
       modify (λ s, set_tainted_models (list_remove model_name (tainted_models s)) s)
     else ret tt) >>
    init >>
    ret true.

(** [taint_models(self.available_models)]: the loop [for model in models]
    of [taint_models] when [models] is the manager's own list of available
    models (the object [get_available_models] returns), which [taint_model]
    shortens while the loop runs.  A list iterator keeps an index: [next]
    yields the item at that index of the list as it is then, and ends the
    loop when the index is not below the length.  [fuel] bounds the number
    of iterations. *)
Fixpoint taint_models_live (fuel index : nat) : @M W unit :=
  match fuel with
  | 0 => raise (RuntimeError "taint_models_live: out of fuel")
  | S fuel' =>
      let! models := gets available_models in
      match models !! index with
      | Some model => taint_model model >> taint_models_live fuel' (S index)
      | None => ret tt
      end
  end.

(** One iteration per name and a last [next] are always enough. *)
Definition taint_available_models : @M W unit :=
  let! models := gets available_models in
  taint_models_live (S (length models)) 0.

(** The items at the positions 0, 2, 4, ... of a list. *)
Fixpoint every_second {A} (l : list A) : list A :=
  match l with
  | [] => []
  | x :: rest =>
      x :: match rest with
           | [] => []
           | _ :: rest' => every_second rest'
           end
  end.

End Steps.

(** ** A small concrete world, for running the code on examples *)

Module Sim.

(** Files with their content, directories, and what each URL serves. *)
Record sim := Make {
  files : gmap string (list byte);
  dirs : gset string;
  remote : gmap string (list byte);
}.

Definition exists_ (w : sim) (p : string) : bool :=
  bool_decide (is_Some (files w !! p)) || bool_decide (p ∈ dirs w).

Definition write (w : sim) (p : string) (content : list byte) : sim :=
  Make (<[p := content]> (files w)) (dirs w) (remote w).

Definition mkdir (w : sim) (p : string) : sim :=
  Make (files w) ({[p]} ∪ dirs w) (remote w).

Definition link (w : sim) (src dst : string) : sim :=
  match files w !! src with
  | Some content => write w dst content
  | None => w
  end.

Definition remove (w : sim) (p : string) : sim :=
  Make (delete p (files w)) (dirs w) (remote w).

Definition move (w : sim) (src dst : string) : sim :=
  match files w !! src with
  | Some content => remove (write w dst content) src
  | None => w
  end.

(** [p] is the path [root] or lies below it. *)
Definition below (root p : string) : bool :=
  bool_decide (p = root) || String.prefix (root +:+ "/") p.

(** A directory that is not there cannot be removed; one that is there
    goes with all that lies below it. *)
Definition rmtree (w : sim) (p : string) : sim * rm_result :=
  if bool_decide (p ∈ dirs w) then
    (Make (filter (λ kv, ¬ Is_true (below p kv.1)) (files w))
          (filter (λ d, ¬ Is_true (below p d)) (dirs w))
          (remote w),
     Removed)
  else (w, RmFailed (FileNotFoundError p)).

(** A reference document is read as the one name it lists. *)
Definition one_model (doc : list byte) : option (gmap string model_entry) :=
  Some {[ string_of_list_byte doc := ModelEntry "diffusers" [] [] ]}.
Definition one_dependency (doc : list byte) : option (gmap string dependency_entry) :=
  Some {[ string_of_list_byte doc := DependencyEntry [] [] ]}.

(** The hash of this world is the content itself. *)
#[global] Instance sim_world : World sim := {
  path_exists := exists_;
  read_file w p := files w !! p;
  makedirs := mkdir;
  write_file := write;
  os_symlink := link;
  os_remove := remove;
  shutil_move := move;
  shutil_rmtree := rmtree;
  zip_extractall w _ _ := w;
  git_clone w _ _ := w;
  http_get w url := remote w !! url;
  parse_models := one_model;
  parse_dependencies := one_dependency;
  bundled_models _ := ∅;
  bundled_dependencies _ := ∅;
  home _ := "/home/user";
  format_url url _ _ := url;
  md5_state := list byte;
  md5_new := [];
  md5_update h chunk := h ++ chunk;
  md5_hexdigest := string_of_list_byte;
  md5_update_app h a b := eq_sym (app_assoc h a b);
  md5_update_nil h := app_nil_r h;
}.

(** A manager over [w] with the given catalogs and nothing else set. *)
Definition manager (w : sim) (ms : gmap string model_entry)
    (ds : gmap string dependency_entry) : state sim :=
  State ms ds [] [] [] ∅ None true "/base" ∅ w [].

(** *** Example data *)

(** A world whose network serves the two reference documents: the model
    document lists [m], the dependency document lists [d]. *)
Definition served : sim :=
  Make ∅ ∅
    (<[remote_models := list_byte_of_string "m"]>
       (<[remote_dependencies := list_byte_of_string "d"]> ∅)).

(** [ModelManager()] in that world: the catalog holds the one model [m],
    of type [diffusers]. *)
Definition fresh : state sim := (new served ∅ None None true true).1.

(** [fresh] after [init], [taint_model("m")] and [init] again. *)
Definition retainted : state sim :=
  run Call_init (run (Call_taint_model "m") (run Call_init fresh)).

(** A registry with one loaded model. *)
Definition one_loaded : state sim :=
  run (Call_register "BLIP" (LoadedEntry 0 "cuda:0")) fresh.

Definition two_loaded : state sim :=
  run (Call_register "CLIP" (LoadedEntry 1 "cpu")) one_loaded.

(** Credentials without a username. *)
Definition password_only : state sim :=
  run (Call_set_authentication (Some {[ "password" := "secret" ]})) fresh.

Definition git_step : step :=
  Step None (Some "a") (Some "http://x/a.git") false false None None true None false.
Definition fetch_step : step :=
  Step None (Some "b") (Some "http://x/b") false false None None false None false.

(** A dependency whose recipe is a git step followed by a fetch step,
    on an empty disk, with a network that serves the second file. *)
Definition git_then_fetch : state sim :=
  manager (Make ∅ ∅ {[ "http://x/b" := list_byte_of_string "B" ]}) ∅
    {[ "dep" := DependencyEntry [FileDetails "a" None; FileDetails "b" None]
                  [git_step; fetch_step] ]}.

(** The model [M] of the specification's scenario: one file [m.bin] with
    a declared checksum and a plain fetch from [http://x/m.bin]. *)
Definition m_bin : file_details := FileDetails "m.bin" (Some "abc").
Definition m_fetch : step :=
  Step None None (Some "http://x/m.bin") false false None None false None false.
Definition scenario (disk : gmap string (list byte)) : state sim :=
  manager (Make disk ∅ {[ "http://x/m.bin" := list_byte_of_string "abc" ]})
    {[ "M" := ModelEntry "ckpt" [m_bin] [m_fetch] ]} ∅.

End Sim.

(** ** Further example data *)

Module Cases.

Import Sim.

(** The model [M] with its file in place, both below the base directory
    and under the catalog path as [validate_file] opens it. *)
Definition in_place : state sim :=
  scenario {[ "m.bin" := [x61; x62; x63]; "/base/m.bin" := [x61; x62; x63] ]}.

(** The same model with an empty base directory and, under the catalog
    path, a file of another content. *)
Definition stale : state sim :=
  scenario {[ "m.bin" := [x6f; x6c; x64] ]}.

(** A model of type [diffusers] with a one-step recipe. *)
Definition diffusers_recipe : state sim :=
  manager Sim.served {[ "D" := ModelEntry "diffusers" [] [m_fetch] ]} ∅.

(** A dependency with one file and one plain fetch step that has no
    [file_name]. *)
Definition nameless : dependency_entry :=
  DependencyEntry [FileDetails "a" None] [m_fetch].
Definition nameless_dependency : state sim :=
  manager Sim.served ∅ {[ "dep" := nameless ]}.

(** The same dependency with its file already on disk. *)
Definition installed_dependency : state sim :=
  manager (Make {[ "/base/a" := [x61] ]} ∅ ∅) ∅ {[ "dep" := nameless ]}.

(** A model whose recipe is a git step with one directory to delete
    afterwards; the directory is on the disk, with a file in it. *)
Definition cleanup : list post_process := [PostProcess (Some "tmp")].
Definition git_cleanup_step : step :=
  Step None None (Some "http://x/r.git") false false None None true (Some cleanup) false.
Definition git_model : model_entry := ModelEntry "ckpt" [FileDetails "r" None] [git_cleanup_step].
Definition with_git_model : state sim :=
  manager (Make {[ "/base/tmp/notes" := [x61] ]} {[ "/base/tmp" ]} ∅) {[ "G" := git_model ]} ∅.

(** A dependency whose recipe is a fetch step, a git step and a second
    fetch step, on an empty disk, with a network that serves both files. *)
Definition late_fetch_step : step :=
  Step None (Some "c") (Some "http://x/c") false false None None false None false.
Definition fetch_git_fetch : dependency_entry :=
  DependencyEntry [FileDetails "b" None; FileDetails "a" None; FileDetails "c" None]
    [fetch_step; git_step; late_fetch_step].
Definition fetch_then_git : state sim :=
  manager (Make ∅ ∅ {[ "http://x/b" := list_byte_of_string "B";
                       "http://x/c" := list_byte_of_string "C" ]}) ∅
    {[ "dep" := fetch_git_fetch ]}.

(** A model with one file and one authenticated fetch step, in a manager
    without credentials, on an empty disk. *)
Definition auth_fetch : step :=
  Step None None (Some "http://{username}:{password}@x/a.bin") true false None None false None
    false.
Definition auth_model : model_entry :=
  ModelEntry "ckpt" [FileDetails "a.bin" None] [auth_fetch].
Definition no_credentials : state sim :=
  manager (Make ∅ ∅ {[ "http://{username}:{password}@x/a.bin" := list_byte_of_string "A" ]})
    {[ "A" := auth_model ]} ∅.

(** A model with two files and a plain fetch step for each, on an empty
    disk. *)
Definition n_fetch : step :=
  Step None None (Some "http://x/n.bin") false false None None false None false.
Definition two_files : model_entry :=
  ModelEntry "ckpt" [FileDetails "m.bin" None; FileDetails "n.bin" None] [m_fetch; n_fetch].
Definition two_fetches : state sim :=
  manager (Make ∅ ∅ {[ "http://x/m.bin" := list_byte_of_string "abc";
                       "http://x/n.bin" := list_byte_of_string "xyz" ]})
    {[ "N" := two_files ]} ∅.

(** Metadata for the examples: every entry has its [type], and the models
    of type [ckpt] are flagged [download_all]. *)
Definition example_get (e : model_entry) (key : string) : option string :=
  if bool_decide (key = "type") then Some (m_type e)
  else if bool_decide (key = "download_all") && bool_decide (m_type e = "ckpt") then Some "True"
  else None.
Definition example_eq (a b : option string) : bool := bool_decide (a = b).

End Cases.

(** * Properties *)

Section Properties.

Context {W : Type} `{World W}.

Implicit Types (s : state W) (name : string).

(** ** The registry *)

Lemma dict_keys_elem {A} (d : gmap string A) (k : string) :
  k ∈ dict_keys d ↔ is_Some (d !! k).
Proof.
  unfold dict_keys. rewrite list_elem_of_fmap. split.
  - intros [[k' v] [-> Hin]]. apply elem_of_map_to_list in Hin. eauto.
  - intros [v Hv]. exists (k, v). split; [done|]. by apply elem_of_map_to_list.
Qed.

Lemma dict_keys_NoDup {A} (d : gmap string A) : NoDup (dict_keys d).
Proof. apply NoDup_fst_map_to_list. Qed.

Lemma dict_keys_empty {A} (d : gmap string A) : dict_keys d = [] ↔ d = ∅.
Proof.
  unfold dict_keys. split.
  - intros Hnil. apply fmap_nil_inv in Hnil. by apply map_to_list_empty_iff.
  - intros ->. by rewrite map_to_list_empty.
Qed.

Lemma unload_all_models_empty s :
  loaded_models s = ∅ → unload_all_models s = (s, Ret true).
Proof.
  intros Hd. unfold unload_all_models, bind, gets.
  rewrite (proj2 (dict_keys_empty _) Hd). simpl. unfold bind, gets.
  by rewrite bool_decide_eq_true_2.
Qed.

(** On a registry that holds anything, the loop deletes one entry and the
    iterator then refuses to go on. *)
Lemma unload_all_models_nonempty s :
  loaded_models s ≠ ∅ →
  ∃ k, is_Some (loaded_models s !! k) ∧
    unload_all_models s =
      (set_loaded_models (delete k (loaded_models s)) s,
       Raise (RuntimeError "dictionary changed size during iteration")).
Proof.
  intros Hne. unfold unload_all_models, bind, gets.
  destruct (dict_keys (loaded_models s)) as [|k rest] eqn:Hkeys.
  { by apply dict_keys_empty in Hkeys. }
  assert (Hk : is_Some (loaded_models s !! k)).
  { apply dict_keys_elem. rewrite Hkeys. left. }
  exists k. split; [done|]. simpl. unfold bind, gets, modify.
  rewrite bool_decide_eq_true_2 by done.
  rewrite bool_decide_eq_true_2 by done.
  destruct rest; simpl; unfold bind, gets; simpl.
  all: rewrite bool_decide_eq_false_2; [done|].
  all: rewrite map_size_delete_Some by done.
  all: apply map_size_non_empty_iff in Hne; lia.
Qed.

(** ** Lookups and availability as functions of the state *)

Lemma get_model_eq name s : get_model name s = (s, Ret (models s !! name)).
Proof. reflexivity. Qed.

Lemma get_dependency_eq name s :
  get_dependency name s =
    (s, match dependencies s !! name with
        | Some e => Ret e
        | None => Raise (KeyError name)
        end).
Proof. unfold get_dependency, bind, gets. by destruct (dependencies s !! name). Qed.

Lemma get_model_files_eq name s :
  get_model_files name s =
    (s, match models s !! name with
        | Some e => Ret (resolved_files e)
        | None => Raise (KeyError name)
        end).
Proof.
  unfold get_model_files, bind, gets, resolved_files.
  destruct (models s !! name) as [e|]; simpl; [|done].
  by destruct (bool_decide (m_type e = "diffusers")).
Qed.

Lemma get_dependency_files_eq name s :
  get_dependency_files name s =
    (s, match dependencies s !! name with
        | Some e => Ret (d_files e)
        | None => Raise (KeyError name)
        end).
Proof. unfold get_dependency_files, bind, gets. by destruct (dependencies s !! name). Qed.

Lemma check_available_from_eq available files s :
  check_available_from available files s = (s, Ret (available && files_present s files)).
Proof.
  revert available. induction files as [|f files IH]; intros available; simpl.
  - by rewrite andb_true_r.
  - unfold bind, check_file_available, gets. rewrite IH. fold (present s (path f)).
    by destruct (present s (path f)), available.
Qed.

Lemma check_available_eq files s :
  check_available files s = (s, Ret (files_present s files)).
Proof. apply check_available_from_eq. Qed.

Lemma collect_available_models names acc s :
  (∀ name, name ∈ names → is_Some (models s !! name)) →
  collect_available get_model_files names acc s =
    (s, Ret (acc ++ filter (λ name, Is_true (model_present s name)) names)).
Proof.
  revert acc. induction names as [|n names IH]; intros acc Hin; simpl.
  - by rewrite app_nil_r.
  - destruct (Hin n) as [e He]; [left|].
    unfold bind. rewrite get_model_files_eq, He, check_available_eq.
    rewrite IH by (intros; apply Hin; by right).
    assert (Hp : model_present s n = files_present s (resolved_files e))
      by (unfold model_present; by rewrite He).
    rewrite filter_cons, Hp.
    destruct (files_present s (resolved_files e)); simpl.
    + by rewrite <-app_assoc.
    + done.
Qed.

Lemma collect_available_dependencies names acc s :
  (∀ name, name ∈ names → is_Some (dependencies s !! name)) →
  collect_available get_dependency_files names acc s =
    (s, Ret (acc ++ filter (λ name, Is_true (dependency_present s name)) names)).
Proof.
  revert acc. induction names as [|n names IH]; intros acc Hin; simpl.
  - by rewrite app_nil_r.
  - destruct (Hin n) as [e He]; [left|].
    unfold bind. rewrite get_dependency_files_eq, He, check_available_eq.
    rewrite IH by (intros; apply Hin; by right).
    assert (Hp : dependency_present s n = files_present s (d_files e))
      by (unfold dependency_present; by rewrite He).
    rewrite filter_cons, Hp.
    destruct (files_present s (d_files e)); simpl.
    + by rewrite <-app_assoc.
    + done.
Qed.

Lemma check_hf_auth_eq s :
  check_hf_auth s = (s, credentials_outcome (hf_auth s)).
Proof.
  unfold check_hf_auth, credentials_outcome, bind, gets.
  destruct (hf_auth s) as [d|]; [|done].
  destruct (d !! "username") as [u|], (d !! "password") as [p|]; simpl; try done.
  all: unfold bind, subscript, ret, raise; simpl; repeat case_match; simplify_eq/=; done.
Qed.

Lemma init_eq s : init s = (after_init s, credentials_outcome (hf_auth s)).
Proof.
  unfold init, bind at 1, gets at 1. unfold bind at 1.
  rewrite collect_available_dependencies by (intros ?; apply dict_keys_elem).
  unfold bind at 1, modify at 1. unfold bind at 1, gets at 1. unfold bind at 1.
  simpl app.
  set (s1 := set_available_dependencies _ s).
  rewrite collect_available_models by (intros ?; apply dict_keys_elem).
  unfold bind, modify. simpl app.
  change (set_available_models _ s1) with (after_init s).
  by rewrite check_hf_auth_eq.
Qed.

Lemma init_state s : (init s).1 = after_init s.
Proof. by rewrite init_eq. Qed.

(** ** Catalog lookups *)

(** C4 (amended). [get_dependency] returns the entry of a name the
    dependency catalog has and raises [KeyError] for any other name;
    [get_model] returns the entry of a name the model catalog has and
    returns [None], without raising, for any other name. *)
Theorem lookup_present_or_absent name s :
  get_dependency name s =
    (s, match dependencies s !! name with
        | Some e => Ret e
        | None => Raise (KeyError name)
        end)
  ∧ get_model name s = (s, Ret (models s !! name)).
Proof. split; [apply get_dependency_eq | apply get_model_eq]. Qed.

(** ** Models of type [diffusers] *)

Lemma check_model_available_eq name s :
  check_model_available name s = (s, Ret (model_present s name)).
Proof.
  unfold check_model_available, bind, gets, model_present.
  destruct (models s !! name) as [e|] eqn:He; simpl.
  - by rewrite get_model_files_eq, He, check_available_eq.
  - done.
Qed.

Lemma available_after_init name s :
  name ∈ available_models (init s).1 ↔ model_present s name = true.
Proof.
  rewrite init_state. unfold after_init. simpl.
  rewrite list_elem_of_filter, dict_keys_elem, Is_true_true.
  split; [by intros [? _]|]. intros Hp. split; [done|].
  unfold model_present in Hp. by destruct (models s !! name).
Qed.

(** C10. A model whose entry has type [diffusers] resolves to the empty
    file list; the availability check over that list is true, so
    [check_model_available] answers true and [init] lists the model as
    available, whatever the disk holds. *)
Theorem diffusers_always_available name e s :
  models s !! name = Some e →
  m_type e = "diffusers" →
  get_model_files name s = (s, Ret [])
  ∧ check_available [] s = (s, Ret true)
  ∧ check_model_available name s = (s, Ret true)
  ∧ name ∈ available_models (init s).1.
Proof.
  intros He Ht.
  assert (Hr : resolved_files e = []).
  { unfold resolved_files. by rewrite bool_decide_eq_true_2. }
  assert (Hp : model_present s name = true).
  { unfold model_present. by rewrite He, Hr. }
  repeat split.
  - by rewrite get_model_files_eq, He, Hr.
  - by rewrite check_model_available_eq, Hp.
  - by apply available_after_init.
Qed.

(** ** The credential check of [init] *)

Lemma init_outcome s : (init s).2 = credentials_outcome (hf_auth s).
Proof. by rewrite init_eq. Qed.

(** ** Construction *)

(** With remote refresh enabled the constructor requests both documents,
    but the dependency catalog it stores is the bundled one in every case;
    the model catalog is the remote one when both requests and the parse of
    the first succeed, and the bundled one otherwise. *)
Lemma constructor_catalogs w env base auth disable :
  let s := (new w env base auth true disable).1 in
  dependencies s = bundled_dependencies w
  ∧ models s =
      match http_get w remote_models with
      | Some r =>
          match parse_models r, http_get w remote_dependencies with
          | Some ms, Some _ => ms
          | _, _ => bundled_models w
          end
      | None => bundled_models w
      end.
Proof.
  unfold new, constructor, bind, try_except, requests_get, bind, emit, modify, gets,
    logger, emit, modify, load_bundled_models, load_bundled_dependencies, modify,
    set_authentication, bind, gets, modify, on_world, modify, raise, ret.
  simpl.
  destruct (http_get w remote_models) as [r|]; simpl.
  - destruct (parse_models r) as [ms|]; simpl.
    + destruct (http_get w remote_dependencies); simpl.
      all: repeat case_match; simplify_eq/=; done.
    + repeat case_match; simplify_eq/=; done.
  - repeat case_match; simplify_eq/=; done.
Qed.

(** ** Checksums *)

Lemma chunk_size_pos : 0 < chunk_size.
Proof. unfold chunk_size. lia. Qed.

(** Reading in chunks feeds the hash the whole content, and one read per
    byte plus a last empty one is enough. *)
Lemma md5_stream_whole fuel h unread :
  length unread < fuel →
  md5_stream fuel h unread = Some (md5_update h unread).
Proof.
  pose proof chunk_size_pos as Hpos.
  revert h unread. induction fuel as [|fuel IH]; intros h unread Hlen; [lia|].
  cbn [md5_stream].
  destruct (take chunk_size unread) as [|b chunk] eqn:Htake.
  - assert (unread = []) as ->.
    { destruct unread as [|x unread]; [done|].
      destruct chunk_size; [lia|]. done. }
    by rewrite md5_update_nil.
  - assert (unread ≠ []) as Hne by (intros ->; by rewrite take_nil in Htake).
    rewrite IH.
    + by rewrite md5_update_app, <-Htake, take_drop.
    + rewrite length_drop. destruct unread; [done|]. simpl in *. lia.
Qed.

Lemma validate_file_eq fd s :
  validate_file fd s =
    match md5sum fd with
    | None => (s, Ret true)
    | Some expected =>
        let s' := set_trace (trace s ++ [Log "debug" ("Getting md5sum of " +:+ path fd)]) s in
        match read_file (world s) (path fd) with
        | None => (s', Raise (FileNotFoundError (path fd)))
        | Some content => (s', Ret (bool_decide (expected = md5_hex content)))
        end
    end.
Proof.
  unfold validate_file. destruct (md5sum fd) as [expected|]; [|done].
  unfold bind, logger, emit, modify, gets. cbn -[md5_stream].
  destruct (read_file (world s) (path fd)) as [content|]; [|done].
  rewrite md5_stream_whole by lia. fold (md5_hex content).
  by destruct (bool_decide (expected = md5_hex content)).
Qed.

(** C8. [validate_file] answers true when the entry declares no checksum;
    for a file that can be read it answers true when the declared checksum
    is the digest of the content, and false when the content is a
    single-byte mutation of an original whose digest is the declared one
    and the two digests differ. *)
Theorem validate_file_checksum fd s :
  (md5sum fd = None → validate_file fd s = (s, Ret true))
  ∧ (∀ content,
       read_file (world s) (path fd) = Some content →
       md5sum fd = Some (md5_hex content) →
       (validate_file fd s).2 = Ret true)
  ∧ (∀ original i b,
       read_file (world s) (path fd) = Some (<[i := b]> original) →
       md5_hex (<[i := b]> original) ≠ md5_hex original →
       md5sum fd = Some (md5_hex original) →
       (validate_file fd s).2 = Ret false).
Proof.
  rewrite validate_file_eq. repeat split.
  - by intros ->.
  - intros content -> ->. simpl. by rewrite bool_decide_eq_true_2.
  - intros original i b -> Hne ->. simpl. by rewrite bool_decide_eq_false_2.
Qed.

(** ** What the download loops leave alone *)

Lemma preserves_ret {A} (P : state W → Prop) (a : A) : preserves P (ret a).
Proof. by intros s Hs. Qed.

Lemma preserves_raise {A} (P : state W → Prop) (e : exn) : preserves P (raise (A := A) e).
Proof. by intros s Hs. Qed.

Lemma preserves_gets {A} (P : state W → Prop) (f : state W → A) : preserves P (gets f).
Proof. by intros s Hs. Qed.

Lemma preserves_modify (P : state W → Prop) (f : state W → state W) :
  (∀ s, P s → P (f s)) → preserves P (modify f).
Proof. intros Hf s Hs. by apply Hf. Qed.

Lemma preserves_bind {A B} (P : state W → Prop) (m : M A) (f : A → M B) :
  preserves P m → (∀ a, preserves P (f a)) → preserves P (bind m f).
Proof.
  intros Hm Hf s Hs. unfold bind. specialize (Hm s Hs).
  destruct (m s) as [s' [a|e]]; simpl in *; [by apply Hf | done].
Qed.

Lemma preserves_emit (P : state W → Prop) (e : event) :
  log_stable P → preserves P (emit e).
Proof. intros HP. apply preserves_modify. intros s Hs. by apply HP. Qed.

Lemma preserves_on_world (P : state W → Prop) (f : W → W) :
  stable P → preserves P (on_world f).
Proof. intros (_ & HP & _). apply preserves_modify. intros s Hs. by apply HP. Qed.

Lemma preserves_local {A} (P : state W → Prop) (var : string) (o : option A) :
  preserves P (local var o).
Proof. destruct o; [apply preserves_ret | apply preserves_raise]. Qed.

Lemma preserves_subscript {A} (P : state W → Prop) (key : string) (o : option A) :
  preserves P (subscript key o).
Proof. destruct o; [apply preserves_ret | apply preserves_raise]. Qed.

Lemma stable_log_stable (P : state W → Prop) : stable P → log_stable P.
Proof. by intros (? & _). Qed.

Local Hint Resolve stable_log_stable : core.

Create HintDb pres.

(** Decomposes a computation along its binds and branches; the lemmas of
    the [pres] database close the calls of functions proved before. *)
Ltac preserves_tac :=
  repeat match goal with
    | |- preserves _ (ret _) => apply preserves_ret
    | |- preserves _ (raise _) => apply preserves_raise
    | |- preserves _ (gets _) => apply preserves_gets
    | |- preserves _ (local _ _) => apply preserves_local
    | |- preserves _ (subscript _ _) => apply preserves_subscript
    | |- preserves _ (emit _) => apply preserves_emit; solve [auto]
    | |- preserves _ (on_world _) => apply preserves_on_world; assumption
    | |- preserves _ (bind _ _) => apply preserves_bind; [|intros ?]
    | |- preserves _ (match ?x with _ => _ end) => destruct x
    | |- preserves _ _ => solve [auto with pres]
    end.

Lemma preserves_store_delete (P : state W → Prop) name i j target :
  stable P → preserves P (modify (store_delete name i j target)).
Proof. intros (_ & _ & HP). apply preserves_modify. intros ? ?. by apply HP. Qed.

Lemma preserves_download_file (P : state W → Prop) url p :
  stable P → preserves P (download_file url p).
Proof. intros HP. unfold download_file. preserves_tac. Qed.

Lemma preserves_bind_locals (P : state W → Prop) d l :
  preserves P (bind_locals d l).
Proof. unfold bind_locals, hf_auth_get. preserves_tac. Qed.

Local Hint Resolve preserves_store_delete preserves_download_file
  preserves_bind_locals : pres.

Lemma preserves_run_post_process (P : state W → Prop) name i j pps :
  stable P → preserves P (run_post_process name i j pps).
Proof.
  intros HP. revert j. induction pps as [|pp pps IH]; intros j; simpl.
  - preserves_tac.
  - unfold logger. preserves_tac.
Qed.

Local Hint Resolve preserves_run_post_process : pres.

Lemma preserves_download_model_step (P : state W → Prop) name files i d l :
  stable P → preserves P (download_model_step name files i d l).
Proof.
  intros HP. unfold download_model_step, target_path, logger, check_file_available.
  preserves_tac.
Qed.

Local Hint Resolve preserves_download_model_step : pres.

Lemma preserves_download_model_loop (P : state W → Prop) name files i steps l :
  stable P → preserves P (download_model_loop name files i steps l).
Proof.
  intros HP. revert i l. induction steps as [|d steps IH]; intros i l; simpl.
  all: preserves_tac.
Qed.

Lemma preserves_download_dependency_step (P : state W → Prop) files i d l :
  stable P → preserves P (download_dependency_step files i d l).
Proof.
  intros HP. unfold download_dependency_step, logger, check_file_available.
  preserves_tac.
Qed.

Local Hint Resolve preserves_download_dependency_step : pres.

Lemma preserves_download_dependency_loop (P : state W → Prop) files i steps l :
  stable P → preserves P (download_dependency_loop files i steps l).
Proof.
  intros HP. revert i l. induction steps as [|d steps IH]; intros i l; simpl.
  all: unfold logger; preserves_tac.
Qed.

Lemma preserves_validate_files (P : state W → Prop) files :
  log_stable P → preserves P (validate_files files).
Proof.
  intros HP. induction files as [|fd files IH]; simpl.
  - preserves_tac.
  - unfold check_file_available, validate_file, logger. preserves_tac.
Qed.

Lemma preserves_check_available_from (P : state W → Prop) available files :
  preserves P (check_available_from available files).
Proof. intros s Hs. by rewrite check_available_from_eq. Qed.

Local Hint Resolve preserves_download_model_loop preserves_download_dependency_loop
  preserves_validate_files preserves_check_available_from : pres.

(** ** The availability lists *)

Lemma list_remove_subseteq x (l : list string) : list_remove x l ⊆ l.
Proof.
  induction l as [|y l IH]; simpl; [done|].
  destruct (decide (x = y)); [by apply list_subseteq_cons|].
  by apply list_subseteq_skip.
Qed.

Lemma list_remove_NoDup x (l : list string) : NoDup l → NoDup (list_remove x l).
Proof.
  induction 1 as [|y l Hy Hl IH]; simpl; [constructor|].
  destruct (decide (x = y)); [done|].
  constructor; [|done]. intros Hin. by apply Hy, (list_remove_subseteq x).
Qed.

Lemma list_remove_NoDup_gone x (l : list string) : NoDup l → x ∉ list_remove x l.
Proof.
  induction 1 as [|y l Hy Hl IH]; simpl; [apply not_elem_of_nil|].
  destruct (decide (x = y)) as [->|Hne]; [done|].
  intros [->|Hin]%elem_of_cons; [by apply Hne | by apply IH].
Qed.


Lemma list_remove_last x (l : list string) : x ∉ l → list_remove x (l ++ [x]) = l.
Proof.
  induction l as [|y l IH]; simpl; intros Hx.
  - by rewrite decide_True.
  - destruct (decide (x = y)) as [->|]; [set_solver|]. f_equal. apply IH. set_solver.
Qed.

Lemma mem_true x (l : list string) : mem x l = true ↔ x ∈ l.
Proof. unfold mem. apply bool_decide_eq_true. Qed.

Lemma mem_false x (l : list string) : mem x l = false ↔ x ∉ l.
Proof. unfold mem. apply bool_decide_eq_false. Qed.

Lemma taint_model_eq name s :
  taint_model name s =
    (if mem name (available_models s) then
       set_tainted_models (tainted_models s ++ [name])
         (set_available_models (list_remove name (available_models s)) s)
     else s, Ret tt).
Proof.
  unfold taint_model, bind, gets. by destruct (mem name (available_models s)).
Qed.

Lemma available_NoDup_stable : stable (W := W) available_NoDup.
Proof. unfold stable, log_stable, available_NoDup. simpl. auto. Qed.

Local Hint Resolve available_NoDup_stable : core.

Lemma available_NoDup_init : preserves (W := W) available_NoDup init.
Proof.
  intros s _. rewrite init_state. unfold available_NoDup, after_init. simpl.
  apply NoDup_filter, dict_keys_NoDup.
Qed.

Lemma available_NoDup_taint_model name : preserves (W := W) available_NoDup (taint_model name).
Proof.
  intros s Hs. rewrite taint_model_eq. simpl.
  destruct (mem name (available_models s)); [|done].
  by apply list_remove_NoDup.
Qed.

(** A [modify] that does not assign [available_models]. *)
Ltac keeps_available :=
  repeat match goal with
    | |- preserves _ (modify _) => apply preserves_modify; intros ? ?; assumption
    end.

Local Hint Resolve available_NoDup_init available_NoDup_taint_model : pres.

Lemma available_NoDup_download_model name :
  preserves (W := W) available_NoDup (download_model name).
Proof.
  unfold download_model, logger, get_model_download, get_model_files, validate_model,
    get_model_files.
  preserves_tac; keeps_available.
Qed.

Lemma available_NoDup_download_dependency name :
  preserves (W := W) available_NoDup (download_dependency name).
Proof.
  unfold download_dependency, logger, get_dependency_download, get_dependency_files.
  preserves_tac.
Qed.

Local Hint Resolve available_NoDup_download_model available_NoDup_download_dependency : pres.

Lemma available_NoDup_download_each names :
  preserves (W := W) available_NoDup
    (download_each check_dependency_available download_dependency "installed" names).
Proof.
  induction names as [|n names IH]; simpl; [apply preserves_ret|].
  unfold check_dependency_available, get_dependency_files, check_available, logger.
  preserves_tac.
Qed.

Lemma available_NoDup_unload_all_loop used keys :
  preserves (W := W) available_NoDup (unload_all_loop used keys).
Proof.
  induction keys as [|k keys IH]; simpl; preserves_tac; keeps_available.
Qed.

Lemma available_NoDup_taint_models names :
  preserves (W := W) available_NoDup (taint_models names).
Proof. induction names as [|n names IH]; simpl; preserves_tac. Qed.

Local Hint Resolve available_NoDup_download_each available_NoDup_unload_all_loop
  available_NoDup_taint_models : pres.

Lemma available_NoDup_run c s : available_NoDup s → available_NoDup (run c s).
Proof.
  revert s.
  destruct c; cbn [run];
    match goal with
    | |- ∀ s, _ → available_NoDup (?m s).1 => change (preserves available_NoDup m)
    end.
  all: try solve [auto with pres].
  - unfold set_authentication. preserves_tac; keeps_available.
  - unfold unload_model. preserves_tac; keeps_available.
  - unfold unload_all_models. preserves_tac.
  - unfold validate_model, get_model_files. preserves_tac.
  - unfold download_all_dependencies. preserves_tac.
  - unfold register. preserves_tac; keeps_available.
Qed.

Lemma preserves_try_except {A} (P : state W → Prop) (body : M A) (handler : exn → M A) :
  preserves P body → (∀ e, preserves P (handler e)) → preserves P (try_except body handler).
Proof.
  intros Hb Hh s Hs. unfold try_except. specialize (Hb s Hs).
  destruct (body s) as [s' [a|e]]; simpl in *; [done | by apply Hh].
Qed.

(** The constructor leaves both lists empty, whether it returns or raises. *)
Lemma new_lists w env base auth download disable :
  let s := (new w env base auth download disable).1 in
  available_models s = [] ∧ tainted_models s = [].
Proof.
  set (P := λ s : state W, available_models s = [] ∧ tainted_models s = []).
  assert (HP : stable P) by (unfold stable, log_stable, P; simpl; auto).
  assert (Hc : preserves P (constructor base auth download disable)).
  { unfold constructor, set_authentication, requests_get, logger,
      load_bundled_models, load_bundled_dependencies.
    destruct download.
    - apply preserves_bind; [apply preserves_try_except; [|intros ?]|intros ?].
      all: preserves_tac.
      all: apply preserves_modify; intros ? [? ?]; by split.
    - preserves_tac.
      all: apply preserves_modify; intros ? [? ?]; by split. }
  by apply Hc.
Qed.

Lemma reachable_available_NoDup s : reachable s → available_NoDup s.
Proof.
  induction 1 as [w env base auth download disable s Hnew|c s _ IH|w s _ IH].
  - pose proof (new_lists w env base auth download disable) as [Ha _].
    rewrite Hnew in Ha. unfold available_NoDup. simpl in Ha. rewrite Ha. constructor.
  - by apply available_NoDup_run.
  - done.
Qed.

Lemma taint_model_exclusive name s :
  available_NoDup s → exclusive s → exclusive (taint_model name s).1.
Proof.
  intros Hnd Hex. rewrite taint_model_eq. simpl.
  destruct (mem name (available_models s)) eqn:Hmem; [|done].
  intros n [Ha Ht]. simpl in Ha, Ht.
  apply elem_of_app in Ht as [Ht|Ht].
  - apply (Hex n). split; [|done]. by apply (list_remove_subseteq name).
  - apply list_elem_of_singleton in Ht as ->.
    by apply (list_remove_NoDup_gone name (available_models s)).
Qed.

Lemma taint_models_exclusive names s :
  available_NoDup s → exclusive s → exclusive (taint_models names s).1.
Proof.
  revert s. induction names as [|n names IH]; intros s Hnd Hex; simpl; [done|].
  pose proof (available_NoDup_taint_model n s Hnd) as Hnd'.
  pose proof (taint_model_exclusive n s Hnd Hex) as Hex'.
  unfold bind. rewrite taint_model_eq in *. simpl in Hnd', Hex'. by apply IH.
Qed.

(** The calls that neither taint nor recompute leave both lists as they
    are. *)
Lemma run_keeps_lists c s :
  recomputes c = false →
  (∀ n, c ≠ Call_taint_model n) → (∀ ns, c ≠ Call_taint_models ns) →
  available_models (run c s) = available_models s
  ∧ tainted_models (run c s) = tainted_models s.
Proof.
  intros Hc Hn Hns.
  set (P := λ s' : state W,
         available_models s' = available_models s ∧ tainted_models s' = tainted_models s).
  assert (Hlog : log_stable P) by (unfold log_stable, P; simpl; auto).
  assert (Hmod : ∀ f : state W → state W,
            (∀ s', available_models (f s') = available_models s'
                   ∧ tainted_models (f s') = tainted_models s') →
            preserves P (modify f)).
  { intros f Hf. apply preserves_modify. intros s' [Ha Ht].
    destruct (Hf s') as [Ha' Ht']. unfold P. by rewrite Ha', Ht'. }
  assert (Hloop : ∀ used keys, preserves P (unload_all_loop used keys)).
  { intros used keys. induction keys as [|k keys IH]; simpl; preserves_tac;
      by apply Hmod. }
  assert (HPs : P s) by done.
  destruct c; try discriminate Hc; cbn [run];
    try (by destruct (Hn model_name)); try (by destruct (Hns names));
    match goal with
    | |- available_models (?m ?s0).1 = _ ∧ _ =>
        cut (preserves P m); [by (intros Hm; apply (Hm s0 HPs))|]
    end.
  - unfold set_authentication. preserves_tac; by apply Hmod.
  - unfold unload_model. preserves_tac; by apply Hmod.
  - unfold unload_all_models. preserves_tac.
  - unfold validate_model, get_model_files. preserves_tac.
  - unfold register. preserves_tac; by apply Hmod.
Qed.

(** C1 (amended). The constructor leaves [available_models] and
    [tainted_models] disjoint (both empty), and from a reachable state in
    which they are disjoint, every call that does not recompute
    availability from the disk leaves them disjoint: [taint_model] and
    [taint_models] move names from one list to the other, and
    [set_authentication], [unload_model], [unload_all_models],
    [validate_model] and the registration of a loaded model touch neither
    list. *)
Theorem exclusive_unless_recomputed :
  (∀ w env base auth download disable,
     exclusive (new (W := W) w env base auth download disable).1)
  ∧ (∀ c s, reachable s → exclusive s → recomputes c = false → exclusive (run c s)).
Proof.
  split.
  - intros w env base auth download disable n [Ha _].
    destruct (new_lists w env base auth download disable) as [Hnil _].
    rewrite Hnil in Ha. by apply not_elem_of_nil in Ha.
  - intros c s Hreach Hex Hc. pose proof (reachable_available_NoDup s Hreach) as Hnd.
    destruct c; try discriminate Hc;
      try (by apply taint_model_exclusive); try (by apply taint_models_exclusive).
    all: match goal with
         | |- exclusive (run ?c ?s0) =>
             destruct (run_keeps_lists c s0) as [Ha Ht]; [done..|];
             intros n; rewrite Ha, Ht; apply Hex
         end.
Qed.

(** ** Tainting followed by a successful download *)

Lemma frame_refl s : frame s s.
Proof. by repeat split. Qed.

Lemma frame_stable s0 : stable (frame s0).
Proof.
  unfold stable, log_stable. split; [|split].
  - intros s t Hs. exact Hs.
  - intros s w Hs. exact Hs.
  - intros s name i j target (Ha & Ht & Hd & Hl & Hh & Hb & Hdep & Hv).
    repeat split; try done.
    intros n. rewrite <-Hv. simpl. rewrite lookup_alter.
    case_decide; [subst|done]. by destruct (models s !! n).
Qed.

Local Hint Resolve frame_stable : core.

Lemma bind_returns {A B} (m : M A) (f : A → M B) (s s' : state W) (b : B) :
  bind m f s = (s', Ret b) → ∃ s1 a, m s = (s1, Ret a) ∧ f a s1 = (s', Ret b).
Proof.
  unfold bind. destruct (m s) as [s1 [a|e]]; [|done]. intros Hf. by exists s1, a.
Qed.

(** A validation that answers true found every file, and wrote to the log
    only. *)
Lemma validate_files_true files s s' :
  validate_files files s = (s', Ret true) →
  files_present s files = true ∧ ∃ t, s' = set_trace t s.
Proof.
  revert s. induction files as [|fd files IH]; intros s; simpl.
  - intros [= <-]. split; [done|]. exists (trace s). by destruct s.
  - unfold bind at 1, check_file_available, gets. fold (present s (path fd)).
    destruct (present s (path fd)); simpl; [|done].
    unfold bind. rewrite validate_file_eq.
    destruct (md5sum fd) as [expected|]; simpl.
    + destruct (read_file (world s) (path fd)) as [content|]; [|done].
      destruct (bool_decide (expected = md5_hex content)); simpl; [|done].
      intros Hrest. apply IH in Hrest as [Hp [t ->]]. split; [done|]. by exists t.
    + apply IH.
Qed.




(** ** Fetch steps of [download_model] *)

Lemma http_requests_app t1 t2 :
  http_requests (t1 ++ t2) = http_requests t1 ++ http_requests t2.
Proof. apply omap_app. Qed.

Lemma bind_locals_url d l s l' u :
  file_url d = Some u →
  bind_locals d l s = (s, Ret l') →
  ∃ u', download_url l' = Some u'.
Proof.
  intros Hu. unfold bind_locals, hf_auth_get, bind, gets, subscript, ret, raise.
  rewrite Hu. intros Hrun.
  repeat case_match; simplify_eq/=; eauto.
Qed.

Lemma download_file_eq url p s :
  download_file url p s =
    let target := PosixPath.join (model_base_path s) p in
    let w := makedirs (world s) (PosixPath.dirname target) in
    let s1 := set_trace (trace s ++ [HttpGet url]) (set_world w s) in
    match http_get w url with
    | Some body => (set_world (write_file w target body) s1, Ret tt)
    | None => (s1, Raise (ConnectionError url))
    end.
Proof.
  unfold download_file, bind, on_world, emit, modify, gets. simpl.
  by destruct (http_get _ url).
Qed.

(** What a fetch step does once its target path and its URL are resolved:
    nothing when the file is there and the model is not tainted, and
    otherwise one request, whose body (if any) is written to the target. *)
Lemma fetch_step_run model_name files i d l s rel l' :
  is_fetch_step d = true →
  target_path files i d s = (s, Ret rel) →
  bind_locals d l s = (s, Ret l') →
  let base := model_base_path s in
  let file_path := PosixPath.join base rel in
  let target := PosixPath.join base file_path in
  ∃ url, download_url l' = Some url ∧
    download_model_step model_name files i d l s =
      if path_exists (world s) target && negb (mem model_name (tainted_models s))
      then (s, Ret l')
      else
        let t := trace s ++ [Log "debug" ("Downloading " +:+ url +:+ " to " +:+ file_path);
                             HttpGet url] in
        let w := makedirs (world s) (PosixPath.dirname target) in
        match http_get w url with
        | Some body => (set_world (write_file w target body) (set_trace t (set_world w s)), Ret l')
        | None => (set_trace t (set_world w s), Raise (ConnectionError url))
        end.
Proof.
  intros Hfetch Htarget Hlocals base file_path target.
  unfold is_fetch_step in Hfetch.
  repeat (apply andb_true_iff in Hfetch as [Hfetch ?]).
  apply bool_decide_eq_true in Hfetch as [u Hu].
  repeat match goal with
         | Hb : bool_decide _ = true |- _ => apply bool_decide_eq_true in Hb
         | Hb : negb _ = true |- _ => apply negb_true_iff in Hb
         end.
  destruct (bind_locals_url d l s l' u Hu Hlocals) as [url Hurl].
  exists url. split; [done|].
  unfold download_model_step. unfold bind at 1. rewrite Htarget.
  unfold bind at 1, gets at 1. unfold bind at 1. rewrite Hlocals.
  repeat match goal with Hk : _ d = _ |- _ => rewrite Hk end.
  unfold bind at 1. unfold bind at 1, check_file_available, gets at 1.
  unfold bind at 1, gets at 1.
  fold base. fold file_path. fold target.
  assert (Hgo : (let! url0 := local "download_url" (download_url l') in
                 logger "debug" ("Downloading " +:+ url0 +:+ " to " +:+ file_path) >>
                 download_file url0 file_path) s =
                let t := trace s ++ [Log "debug" ("Downloading " +:+ url +:+ " to " +:+ file_path);
                                     HttpGet url] in
                let w := makedirs (world s) (PosixPath.dirname target) in
                match http_get w url with
                | Some body =>
                    (set_world (write_file w target body) (set_trace t (set_world w s)), Ret tt)
                | None => (set_trace t (set_world w s), Raise (ConnectionError url))
                end).
  { rewrite Hurl. unfold bind, local, ret, logger, emit, modify.
    rewrite download_file_eq. cbn [model_base_path world trace set_trace].
    fold base. fold target.
    destruct (http_get _ url); unfold set_world, set_trace; cbn; by rewrite <-app_assoc. }
  destruct (path_exists (world s) target); cbn [negb orb andb].
  2: { rewrite Hgo. cbn zeta. by destruct (http_get _ url). }
  destruct (mem model_name (tainted_models s)); cbn [negb]; [|done].
  rewrite Hgo. cbn zeta. by destruct (http_get _ url).
Qed.

(** A fetch step whose target path and URL are resolved requests nothing
    exactly when the file is there and the model is not tainted, and its
    URL, once, otherwise. *)
Lemma fetch_step_requests model_name files i d l s rel l' :
  is_fetch_step d = true →
  target_path files i d s = (s, Ret rel) →
  bind_locals d l s = (s, Ret l') →
  let target :=
    PosixPath.join (model_base_path s) (PosixPath.join (model_base_path s) rel) in
  let s' := (download_model_step model_name files i d l s).1 in
  (http_requests (trace s') = http_requests (trace s)
   ↔ (path_exists (world s) target = true ∧ model_name ∉ tainted_models s))
  ∧ (path_exists (world s) target = false ∨ model_name ∈ tainted_models s →
     ∃ url, download_url l' = Some url
            ∧ http_requests (trace s') = http_requests (trace s) ++ [url]).
Proof.
  intros Hfetch Htarget Hlocals target s'.
  destruct (fetch_step_run model_name files i d l s rel l' Hfetch Htarget Hlocals)
    as (url & Hurl & Hrun).
  subst s'. rewrite Hrun. fold target.
  destruct (path_exists (world s) target); simpl.
  - destruct (mem model_name (tainted_models s)) eqn:Hmem; simpl.
    + apply mem_true in Hmem. split.
      * split; [|by intros [_ ?]].
        destruct (http_get _ url); simpl; rewrite http_requests_app; simpl;
          intros Heq; apply (f_equal length) in Heq; rewrite length_app in Heq;
          simpl in Heq; lia.
      * intros _. exists url. split; [done|].
        destruct (http_get _ url); simpl; by rewrite http_requests_app.
    + apply mem_false in Hmem. split; [done|]. by intros [?|?].
  - split.
    + split; [|by intros [? _]].
      destruct (http_get _ url); simpl; rewrite http_requests_app; simpl;
        intros Heq; apply (f_equal length) in Heq; rewrite length_app in Heq;
        simpl in Heq; lia.
    + intros _. exists url. split; [done|].
      destruct (http_get _ url); simpl; by rewrite http_requests_app.
Qed.

(** The loop over a recipe [pre ++ rest] runs the steps of [pre] and goes
    on with [rest] from the state and the local variables they leave. *)
Lemma download_model_loop_app model_name files i pre rest l s :
  download_model_loop model_name files i (pre ++ rest) l s =
  (let! l1 := model_steps model_name files i pre l in
   download_model_loop model_name files (i + length pre) rest l1) s.
Proof.
  revert i l s. induction pre as [|d pre IH]; intros i l s; simpl.
  - unfold bind, ret. by rewrite Nat.add_0_r.
  - unfold bind.
    destruct (download_model_step model_name files i d l s) as [s1 [l1|err]]; [|done].
    rewrite IH. unfold bind. by rewrite Nat.add_succ_r.
Qed.

Lemma download_model_unfold name e s :
  name ∉ available_models s →
  models s !! name = Some e →
  download_model name s =
    (download_model_loop name (resolved_files e) 0 (m_download e) unbound >>
     download_model_finish name) s.
Proof.
  intros Hna He. unfold download_model, bind at 1, gets at 1.
  rewrite (proj2 (mem_false _ _) Hna).
  unfold bind at 1, get_model_download, bind at 1, gets at 1. rewrite He. simpl.
  unfold bind at 1. rewrite get_model_files_eq, He. reflexivity.
Qed.

Lemma bind_locals_state d l s : (bind_locals d l s).1 = s.
Proof.
  unfold bind_locals, hf_auth_get, bind, gets, subscript, ret, raise.
  repeat case_match; simplify_eq/=; done.
Qed.

(** A step whose URL does not resolve raises what the lookup of the
    credentials raised, before anything else is done. *)
Lemma download_model_step_unresolved model_name files i d l s rel err :
  target_path files i d s = (s, Ret rel) →
  (bind_locals d l s).2 = Raise err →
  download_model_step model_name files i d l s = (s, Raise err).
Proof.
  intros Htarget Hlocals. unfold download_model_step. unfold bind at 1. rewrite Htarget.
  unfold bind at 1, gets at 1. unfold bind at 1.
  pose proof (bind_locals_state d l s) as Hs.
  destruct (bind_locals d l s) as [s1 [l1|err1]]; simpl in *; [done|].
  by simplify_eq.
Qed.

(** C7 (amended). In [download_model] of a model not listed as available,
    once the steps before a plain or authenticated fetch step have
    returned and the target path of the step resolves, [download_model]
    goes on with that step, the rest of the recipe and the validation.
    When the URL of the step resolves (for an authenticated step: the
    stored credentials hold a username and a password), the step requests
    nothing from the network if and only if the file it would write
    already exists and the model is not in the tainted list; otherwise,
    so also for a tainted model whose file is present, it requests its
    URL, once.  When the URL does not resolve, the step raises the
    exception of the failed lookup and nothing is requested. *)
Theorem fetch_skipped_iff name e pre d post s s1 l1 rel :
  name ∉ available_models s →
  models s !! name = Some e →
  m_download e = pre ++ d :: post →
  model_steps name (resolved_files e) 0 pre unbound s = (s1, Ret l1) →
  is_fetch_step d = true →
  target_path (resolved_files e) (length pre) d s1 = (s1, Ret rel) →
  let step := download_model_step name (resolved_files e) (length pre) d l1 in
  let target :=
    PosixPath.join (model_base_path s1) (PosixPath.join (model_base_path s1) rel) in
  download_model name s =
    (let! l2 := step in
     download_model_loop name (resolved_files e) (S (length pre)) post l2 >>
     download_model_finish name) s1
  ∧ (∀ l', bind_locals d l1 s1 = (s1, Ret l') →
       (http_requests (trace (step s1).1) = http_requests (trace s1)
        ↔ path_exists (world s1) target = true ∧ name ∉ tainted_models s1)
       ∧ (path_exists (world s1) target = false ∨ name ∈ tainted_models s1 →
          ∃ url, download_url l' = Some url
                 ∧ http_requests (trace (step s1).1) = http_requests (trace s1) ++ [url]))
  ∧ (∀ err, (bind_locals d l1 s1).2 = Raise err → step s1 = (s1, Raise err)).
Proof.
  intros Hna He Hd Hpre Hfetch Htarget step target.
  split; [|split].
  - rewrite (download_model_unfold name e s Hna He), Hd.
    unfold bind at 1. rewrite download_model_loop_app.
    unfold bind at 1. rewrite Hpre. simpl.
    unfold bind. subst step.
    by destruct (download_model_step name (resolved_files e) (length pre) d l1 s1)
      as [s2 [l2|err]].
  - intros l' Hlocals.
    exact (fetch_step_requests name (resolved_files e) (length pre) d l1 s1 rel l'
             Hfetch Htarget Hlocals).
  - intros err Hlocals.
    exact (download_model_step_unresolved name (resolved_files e) (length pre) d l1 s1 rel err
             Htarget Hlocals).
Qed.

(** ** Git steps of [download_dependency] *)

(** Up to the first git step the loop runs the steps one after the other;
    at the git step it logs the warning and stops. *)
Lemma download_dependency_loop_until_git files i pre g post l s :
  Forall (λ d, git d = false) pre →
  git g = true →
  download_dependency_loop files i (pre ++ g :: post) l s =
  (dependency_steps files i pre l >> logger "warning" "git download not implemented yet") s.
Proof.
  intros Hpre Hg. revert i l s.
  induction Hpre as [|d pre Hd Hpre IH]; intros i l s; simpl.
  - by rewrite Hg.
  - rewrite Hd. unfold bind.
    destruct (download_dependency_step files i d l s) as [s1 [l1|err]]; [|done].
    rewrite IH. reflexivity.
Qed.

(** C5 (amended). For a dependency of the catalog that is not listed as
    installed, the first step with the [git] key ends the recipe of
    [download_dependency]: the steps before it are run, one after the
    other, then the warning is logged, and neither the git step nor any
    step after it is executed.  The call itself goes on: it recomputes
    availability and returns [True], unless a step before the git step or
    the credential check of [init] raises. *)
Theorem git_step_ends_recipe name e pre g post s :
  dependencies s !! name = Some e →
  name ∉ available_dependencies s →
  d_download e = pre ++ g :: post →
  Forall (λ d, git d = false) pre →
  git g = true →
  download_dependency name s =
    (dependency_steps (d_files e) 0 pre unbound >>
     logger "warning" "git download not implemented yet" >>
     init >>
     ret true) s.
Proof.
  intros He Hna Hd Hpre Hg.
  unfold download_dependency, bind at 1, gets at 1.
  rewrite (proj2 (mem_false _ _) Hna).
  unfold bind at 1, get_dependency_download, bind at 1, gets at 1. rewrite He. simpl.
  unfold bind at 1. rewrite get_dependency_files_eq, He, Hd.
  unfold bind at 1. rewrite download_dependency_loop_until_git by done.
  unfold bind.
  by destruct (dependency_steps (d_files e) 0 pre unbound s) as [s1 [l1|err]].
Qed.

(** * Further properties of the manager *)

(** ** Credentials *)

(** X1. Once credentials are stored, [set_authentication] with [None] or
    an empty dict changes nothing. *)
Theorem set_authentication_keeps_credentials auth s :
  truthy (hf_auth s) = true →
  truthy auth = false →
  set_authentication auth s = (s, Ret tt).
Proof.
  intros Hcur Hnew. unfold set_authentication, bind, gets. by rewrite Hcur, Hnew.
Qed.

(** X2. Non-empty credentials replace the stored ones whatever these were.
    With a password the call returns, the password is mirrored into
    [HUGGING_FACE_HUB_TOKEN] and [has_authentication] answers true; without
    one the call raises [TypeError], after the credentials were stored. *)
Theorem set_authentication_stores d s :
  d ≠ ∅ →
  set_authentication (Some d) s =
    match d !! "password" with
    | Some pw =>
        (set_environ (<["HUGGING_FACE_HUB_TOKEN" := pw]> (environ s)) (set_hf_auth (Some d) s),
         Ret tt)
    | None => (set_hf_auth (Some d) s, Raise (TypeError "str expected, not NoneType"))
    end
  ∧ hf_auth (set_authentication (Some d) s).1 = Some d
  ∧ (has_authentication (set_authentication (Some d) s).1).2 = Ret true.
Proof.
  intros Hd.
  assert (Ht : truthy (Some d) = true) by (simpl; by rewrite bool_decide_eq_false_2).
  assert (Hrun : set_authentication (Some d) s =
            match d !! "password" with
            | Some pw =>
                (set_environ (<["HUGGING_FACE_HUB_TOKEN" := pw]> (environ s))
                   (set_hf_auth (Some d) s), Ret tt)
            | None => (set_hf_auth (Some d) s, Raise (TypeError "str expected, not NoneType"))
            end).
  { unfold set_authentication, bind, gets, modify. rewrite Ht. simpl.
    by destruct (d !! "password"). }
  rewrite Hrun. split; [done|].
  destruct (d !! "password"); simpl; by rewrite bool_decide_eq_false_2.
Qed.

(** X3. On a manager without credentials an empty dict is stored as it is,
    and [init] then recomputes both lists and raises [ValueError]. *)
Theorem empty_credentials_break_init s :
  truthy (hf_auth s) = false →
  set_authentication (Some ∅) s = (set_hf_auth (Some ∅) s, Ret tt)
  ∧ init (set_hf_auth (Some ∅) s) =
      (after_init (set_hf_auth (Some ∅) s),
       Raise (ValueError "hf_auth must contain username and password")).
Proof.
  intros Hcur. split.
  - unfold set_authentication, bind, gets, modify. rewrite Hcur. reflexivity.
  - rewrite init_eq. reflexivity.
Qed.

(** ** The registry *)

(** X4. [unload_model] answers whether the name was loaded, removes that
    entry and no other, and a second call answers false and changes
    nothing. *)
Theorem unload_model_once name s :
  let r := unload_model name s in
  r.2 = Ret (bool_decide (is_Some (loaded_models s !! name)))
  ∧ loaded_models r.1 !! name = None
  ∧ (∀ other, other ≠ name → loaded_models r.1 !! other = loaded_models s !! other)
  ∧ unload_model name r.1 = (r.1, Ret false).
Proof.
  unfold unload_model, bind, gets, modify.
  destruct (bool_decide (is_Some (loaded_models s !! name))) eqn:Hin; simpl.
  - rewrite lookup_delete_eq. split; [done|]. split; [done|]. split.
    + intros other Hne. by rewrite lookup_delete_ne.
    + rewrite bool_decide_eq_false_2; [done|]. by intros [??].
  - apply bool_decide_eq_false in Hin.
    split; [done|]. split; [by apply eq_None_not_Some|]. split; [done|].
    by rewrite bool_decide_eq_false_2.
Qed.

(** X5. A registered entry is the one [get_loaded_model] returns, its name
    is among [get_loaded_models_names], registering again under the same
    name overwrites it, and unloading it gives back the registry without
    that name.  [get_loaded_model] of a name that is not loaded raises
    [KeyError]. *)
Theorem register_round_trip name e e' s :
  let s1 := (register name e s).1 in
  register name e s = (s1, Ret true)
  ∧ get_loaded_model name s1 = (s1, Ret e)
  ∧ (∃ names, get_loaded_models_names s1 = (s1, Ret names) ∧ name ∈ names)
  ∧ (register name e' s1).1 = (register name e' s).1
  ∧ unload_model name s1 =
      (set_loaded_models (delete name (loaded_models s)) s, Ret true)
  ∧ (loaded_models s !! name = None →
     get_loaded_model name s = (s, Raise (KeyError name))
     ∧ (unload_model name s1).1 = s).
Proof.
  unfold register, get_loaded_model, get_loaded_models_names, unload_model,
    bind, gets, modify, subscript. simpl.
  rewrite lookup_insert_eq. simpl.
  unfold set_loaded_models, ret. simpl. rewrite insert_insert_eq, delete_insert_eq.
  split; [done|]. split; [done|]. split; [|split; [done|split; [done|]]].
  - eexists. split; [done|]. apply dict_keys_elem. rewrite lookup_insert_eq. eauto.
  - intros Hnone. rewrite Hnone. split; [done|].
    rewrite delete_id by done. by destruct s.
Qed.

(** X6. [unload_all_models] returns (with [True]) exactly when nothing is
    loaded, and then leaves the manager as it is; otherwise it raises
    [RuntimeError] with exactly one entry removed. *)
Theorem unload_all_models_returns_iff s :
  ((unload_all_models s).2 = Ret true ↔ loaded_models s = ∅)
  ∧ (loaded_models s = ∅ → (unload_all_models s).1 = s)
  ∧ (loaded_models s ≠ ∅ →
     (unload_all_models s).2 = Raise (RuntimeError "dictionary changed size during iteration")
     ∧ size (loaded_models (unload_all_models s).1) = pred (size (loaded_models s))).
Proof.
  split; [|split].
  - split.
    + intros Hret. destruct (decide (loaded_models s = ∅)) as [|Hne]; [done|].
      destruct (unload_all_models_nonempty s Hne) as (k & _ & Hrun).
      by rewrite Hrun in Hret.
    + intros Hempty. by rewrite unload_all_models_empty.
  - intros Hempty. by rewrite unload_all_models_empty.
  - intros Hne. destruct (unload_all_models_nonempty s Hne) as (k & Hk & Hrun).
    rewrite Hrun. split; [done|]. simpl. by apply map_size_delete_Some.
Qed.

(** ** Tainting *)

Lemma list_remove_other x y (l : list string) : y ≠ x → y ∈ list_remove x l ↔ y ∈ l.
Proof.
  intros Hne. induction l as [|z l IH]; simpl; [done|].
  destruct (decide (x = z)) as [->|Hxz].
  - rewrite elem_of_cons. split; [by right | by intros [?|?]].
  - rewrite !elem_of_cons, IH. done.
Qed.

(** X7. [taint_model] of a name that is not listed as available changes
    nothing.  Of a name that is, it appends the name to the tainted list
    and, for every other name, leaves membership in both lists as it was.
    Catalogs, disk and log are never touched. *)
Theorem taint_model_only_that_name name s :
  let s' := (taint_model name s).1 in
  (name ∉ available_models s → s' = s)
  ∧ (name ∈ available_models s → name ∈ tainted_models s')
  ∧ (∀ other, other ≠ name →
       (other ∈ available_models s' ↔ other ∈ available_models s)
       ∧ (other ∈ tainted_models s' ↔ other ∈ tainted_models s))
  ∧ models s' = models s ∧ world s' = world s ∧ trace s' = trace s.
Proof.
  rewrite taint_model_eq. simpl.
  destruct (mem name (available_models s)) eqn:Hmem.
  - apply mem_true in Hmem. simpl. split; [done|]. split.
    { intros _. apply elem_of_app. right. by apply list_elem_of_singleton. }
    split; [|done].
    intros other Hne. split; [by apply list_remove_other|].
    rewrite elem_of_app, list_elem_of_singleton. split; [by intros [?|?] | by left].
  - apply mem_false in Hmem. done.
Qed.

Lemma taint_models_available names s :
  ∀ n, n ∈ available_models (taint_models names s).1 → n ∈ available_models s.
Proof.
  revert s. induction names as [|m names IH]; intros s n; simpl; [done|].
  unfold bind. rewrite taint_model_eq. intros Hin. apply IH in Hin. simpl in Hin.
  destruct (mem m (available_models s)); [|done].
  by apply (list_remove_subseteq m).
Qed.

Lemma every_second_cons {A} (x : A) l :
  every_second (x :: l) = x :: every_second (tail l).
Proof. by destruct l. Qed.

Lemma list_remove_middle (x : string) kept rest :
  x ∉ kept → list_remove x (kept ++ x :: rest) = kept ++ rest.
Proof.
  induction kept as [|y kept IH]; intros Hx; simpl.
  - by rewrite decide_True.
  - apply not_elem_of_cons in Hx as [Hne Hx].
    rewrite decide_False by done. by rewrite IH.
Qed.

(** The loop over the manager's own list, with the iterator at the end of
    [kept]: it taints the name under the iterator, the next name slides
    into its place and is passed over. *)
Lemma taint_models_live_run fuel kept rest s :
  available_models s = kept ++ rest →
  NoDup (kept ++ rest) →
  length rest < fuel →
  ∃ s', taint_models_live fuel (length kept) s = (s', Ret tt)
  ∧ available_models s' = kept ++ every_second (tail rest)
  ∧ tainted_models s' = tainted_models s ++ every_second rest.
Proof.
  revert kept rest s. induction fuel as [|fuel IH]; intros kept rest s Ha Hnd Hlen; [lia|].
  cbn [taint_models_live]. unfold bind at 1, gets at 1. rewrite Ha.
  destruct rest as [|x rest].
  { rewrite lookup_ge_None_2 by (rewrite length_app; simpl; lia).
    exists s. unfold ret. cbn. rewrite !app_nil_r. rewrite app_nil_r in Ha. done. }
  rewrite lookup_app_r, Nat.sub_diag by lia. cbn [lookup list_lookup].
  assert (Hx : x ∉ kept).
  { apply NoDup_app in Hnd as (_ & Hdis & _). intros Hin. apply (Hdis x Hin). by left. }
  unfold bind at 1. rewrite taint_model_eq.
  rewrite (proj2 (mem_true x (available_models s)))
    by (rewrite Ha; apply elem_of_app; right; by left).
  rewrite Ha, list_remove_middle by done.
  destruct rest as [|y rest].
  { destruct fuel as [|fuel]; [simpl in Hlen; lia|].
    eexists. split.
    { cbn [taint_models_live]. unfold bind, gets.
      cbn [available_models set_tainted_models set_available_models].
      rewrite app_nil_r.
      rewrite lookup_ge_None_2 by lia. reflexivity. }
    simpl. by rewrite app_nil_r. }
  assert (Hnd' : NoDup ((kept ++ [y]) ++ rest)).
  { rewrite <-app_assoc. simpl.
    apply NoDup_app in Hnd as (Hk & Hdis & Hr). apply NoDup_cons in Hr as [_ Hr].
    apply NoDup_app. split; [done|]. split; [|done].
    intros z Hz Hin. apply (Hdis z Hz). by right. }
  destruct (IH (kept ++ [y]) rest
                (set_tainted_models (tainted_models s ++ [x])
                   (set_available_models (kept ++ y :: rest) s)))
    as (s' & Hrun & Hav & Ht).
  - simpl. by rewrite <-app_assoc.
  - done.
  - simpl in Hlen. lia.
  - rewrite length_app in Hrun. simpl in Hrun. rewrite Nat.add_1_r in Hrun.
    exists s'. split; [exact Hrun|]. split.
    + cbn [tail]. rewrite every_second_cons, Hav, <-app_assoc. done.
    + rewrite Ht. simpl. by rewrite <-app_assoc.
Qed.

(** X8. At a reachable state, [taint_models] over a list of names that is
    an object of its own (a literal, a copy) leaves none of the given names
    listed as available, lists every given name that was available as
    tainted, and adds no name to the available list.  Called on the
    manager's own list of available models, the loop runs over the list
    while [taint_model] shortens it, and taints every second name only:
    the names at the positions 0, 2, 4, ... are moved to the tainted list
    and those at the positions 1, 3, 5, ... stay listed as available. *)
Theorem taint_models_all names s :
  reachable s →
  let s' := (taint_models names s).1 in
  let r := taint_available_models s in
  ((∀ n, n ∈ names → n ∉ available_models s')
   ∧ (∀ n, n ∈ names → n ∈ available_models s → n ∈ tainted_models s')
   ∧ (∀ n, n ∈ available_models s' → n ∈ available_models s))
  ∧ r.2 = Ret tt
  ∧ available_models r.1 = every_second (tail (available_models s))
  ∧ tainted_models r.1 = tainted_models s ++ every_second (available_models s).
Proof.
  intros Hreach. apply reachable_available_NoDup in Hreach. cbn zeta.
  split.
  { split; [|split]; [| |apply taint_models_available].
    - revert s Hreach. induction names as [|m names IH]; intros s Hnd n Hn.
      { by apply not_elem_of_nil in Hn. }
      simpl. unfold bind.
      pose proof (available_NoDup_taint_model m s Hnd) as Hnd'.
      rewrite taint_model_eq in *. simpl in Hnd'.
      apply elem_of_cons in Hn as [->|Hn]; [|by apply IH].
      intros Hin. apply taint_models_available in Hin. simpl in Hin.
      destruct (mem m (available_models s)) eqn:Hmem.
      + by apply (list_remove_NoDup_gone m (available_models s)).
      + by apply mem_false in Hmem.
    - revert s Hreach. induction names as [|m names IH]; intros s Hnd n Hn Ha.
      { by apply not_elem_of_nil in Hn. }
      simpl. unfold bind.
      pose proof (available_NoDup_taint_model m s Hnd) as Hnd'.
      rewrite taint_model_eq in *. simpl in Hnd'.
      assert (Hmono : ∀ l s0, (∀ x, x ∈ tainted_models s0 → x ∈ tainted_models (taint_models l s0).1)).
      { clear. intros l. induction l as [|m l IHl]; intros s0 x Hx; simpl; [done|].
        unfold bind. rewrite taint_model_eq. apply IHl. simpl.
        destruct (mem m (available_models s0)); [|done]. simpl.
        apply elem_of_app. by left. }
      destruct (decide (n = m)) as [->|Hne].
      + apply Hmono. rewrite (proj2 (mem_true _ _) Ha). simpl.
        apply elem_of_app. right. by apply list_elem_of_singleton.
      + apply elem_of_cons in Hn as [?|Hn]; [done|].
        apply IH; [done..|].
        destruct (mem m (available_models s)); [|done]. simpl.
        by apply list_remove_other.
  }
  unfold taint_available_models, bind, gets.
  destruct (taint_models_live_run (S (length (available_models s))) [] (available_models s) s
              eq_refl Hreach (Nat.lt_succ_diag_r _)) as (s' & Hrun & Hav & Ht).
  simpl in Hrun. simpl. rewrite Hrun. done.
Qed.

(** ** Recomputing availability *)

Lemma model_present_after_init s name :
  model_present (after_init s) name = model_present s name.
Proof. reflexivity. Qed.

Lemma dependency_present_after_init s name :
  dependency_present (after_init s) name = dependency_present s name.
Proof. reflexivity. Qed.

(** X9. [init] is idempotent: run again on the state it left, with the
    disk unchanged, it leaves the same state and gives the same answer. *)
Theorem init_idempotent s : init (init s).1 = init s.
Proof.
  rewrite !init_eq. reflexivity.
Qed.

(** X10. After [init], whether it returns or raises, the two availability
    lists hold exactly the catalog names whose files all exist below the
    base directory, each once; the tainted list, the registry, the
    catalogs, the disk and the log are what they were. *)
Theorem init_lists s :
  let s' := (init s).1 in
  (∀ name, name ∈ available_models s' ↔
     ∃ e, models s !! name = Some e ∧ files_present s (resolved_files e) = true)
  ∧ (∀ name, name ∈ available_dependencies s' ↔
       ∃ e, dependencies s !! name = Some e ∧ files_present s (d_files e) = true)
  ∧ NoDup (available_models s') ∧ NoDup (available_dependencies s')
  ∧ tainted_models s' = tainted_models s ∧ loaded_models s' = loaded_models s
  ∧ models s' = models s ∧ dependencies s' = dependencies s
  ∧ world s' = world s ∧ trace s' = trace s.
Proof.
  rewrite init_state. unfold after_init. simpl.
  split; [|split; [|split; [|split]]]; try done.
  - intros name. rewrite list_elem_of_filter, dict_keys_elem, Is_true_true.
    unfold model_present. split.
    + intros [Hp [e He]]. rewrite He in Hp. eauto.
    + intros (e & He & Hp). rewrite He. eauto.
  - intros name. rewrite list_elem_of_filter, dict_keys_elem, Is_true_true.
    unfold dependency_present. split.
    + intros [Hp [e He]]. rewrite He in Hp. eauto.
    + intros (e & He & Hp). rewrite He. eauto.
  - apply NoDup_filter, dict_keys_NoDup.
  - apply NoDup_filter, dict_keys_NoDup.
Qed.

(** ** Availability checks *)

Lemma files_present_forall s files :
  files_present s files = true ↔
  ∀ f, f ∈ files → path_exists (world s) (PosixPath.join (model_base_path s) (path f)) = true.
Proof.
  unfold files_present. rewrite forallb_forall. unfold present.
  split; intros Hall f Hf; apply Hall; by apply list_elem_of_In.
Qed.

(** X11. [check_available] never raises and never changes the manager; it
    answers true exactly when every listed file exists below the base
    directory (so always for the empty list), and it does not look at the
    checksums. *)
Theorem check_available_iff files s :
  ∃ b, check_available files s = (s, Ret b)
    ∧ (b = true ↔
       ∀ f, f ∈ files →
         path_exists (world s) (PosixPath.join (model_base_path s) (path f)) = true)
    ∧ check_available (map (λ f, FileDetails (path f) None) files) s = (s, Ret b).
Proof.
  exists (files_present s files). rewrite !check_available_eq.
  split; [done|]. split; [apply files_present_forall|].
  f_equal. f_equal. unfold files_present. induction files as [|f files IH]; simpl; [done|].
  by rewrite IH.
Qed.

(** X12. [check_model_available] and [check_dependency_available] answer
    false for a name the catalog does not have, where [get_model_files]
    and [get_dependency_files] raise [KeyError]; for a name it has they
    answer what [check_available] answers for its files. *)
Theorem check_available_by_name name s :
  (models s !! name = None →
     check_model_available name s = (s, Ret false)
     ∧ get_model_files name s = (s, Raise (KeyError name)))
  ∧ (dependencies s !! name = None →
     check_dependency_available name s = (s, Ret false)
     ∧ get_dependency_files name s = (s, Raise (KeyError name)))
  ∧ (∀ e, models s !! name = Some e →
     check_model_available name s = check_available (resolved_files e) s)
  ∧ (∀ e, dependencies s !! name = Some e →
     check_dependency_available name s = check_available (d_files e) s).
Proof.
  split; [|split; [|split]].
  - intros Hnone. rewrite check_model_available_eq, get_model_files_eq.
    unfold model_present. by rewrite Hnone.
  - intros Hnone. rewrite get_dependency_files_eq.
    unfold check_dependency_available, bind, gets. by rewrite Hnone.
  - intros e He. rewrite check_model_available_eq, check_available_eq.
    unfold model_present. by rewrite He.
  - intros e He. unfold check_dependency_available, bind at 1, gets at 1. rewrite He. simpl.
    unfold bind. by rewrite get_dependency_files_eq, He.
Qed.

(** ** Validation *)

(** What [validate_files] answers for files that exist and can be read. *)
Lemma validate_files_outcome files s :
  (validate_files files s).2 = Ret true ↔
  ∀ f, f ∈ files →
    present s (path f) = true
    ∧ ∀ h, md5sum f = Some h →
        ∃ content, read_file (world s) (path f) = Some content ∧ md5_hex content = h.
Proof.
  revert s. induction files as [|fd files IH]; intros s; simpl.
  { split; [|done]. intros _ f Hf. by apply not_elem_of_nil in Hf. }
  unfold bind at 1, check_file_available, gets. fold (present s (path fd)).
  destruct (present s (path fd)) eqn:Hp; simpl.
  2: { split; [done|]. intros Hall. destruct (Hall fd) as [Hp' _]; [left|]. congruence. }
  unfold bind. rewrite validate_file_eq.
  destruct (md5sum fd) as [expected|] eqn:Hsum; simpl.
  - destruct (read_file (world s) (path fd)) as [content|] eqn:Hread; simpl.
    + destruct (bool_decide (expected = md5_hex content)) eqn:Heq; simpl.
      * apply bool_decide_eq_true in Heq. rewrite IH. split.
        -- intros Hall f [->|Hf]%elem_of_cons; [|by apply Hall].
           split; [done|]. intros h Hh. rewrite Hsum in Hh. injection Hh as <-. eauto.
        -- intros Hall f Hf. apply Hall. by right.
      * apply bool_decide_eq_false in Heq. split; [done|]. intros Hall.
        destruct (Hall fd) as [_ Hh]; [left|].
        destruct (Hh expected Hsum) as (c & Hc & Hm). congruence.
    + split; [done|]. intros Hall. destruct (Hall fd) as [_ Hh]; [left|].
      destruct (Hh expected Hsum) as (c & Hc & _). congruence.
  - rewrite IH. split.
    + intros Hall f [->|Hf]%elem_of_cons; [|by apply Hall].
      split; [done|]. intros h Hh. congruence.
    + intros Hall f Hf. apply Hall. by right.
Qed.

(** X13. For a model of the catalog, [validate_model] returns true exactly
    when every required file exists below the base directory and every
    file that declares a checksum can be read and has that digest.  A
    checksum mismatch is an answer, not an exception. *)
Theorem validate_model_true_iff name e s :
  models s !! name = Some e →
  (validate_model name s).2 = Ret true ↔
  ∀ f, f ∈ resolved_files e →
    path_exists (world s) (PosixPath.join (model_base_path s) (path f)) = true
    ∧ ∀ h, md5sum f = Some h →
        ∃ content, read_file (world s) (path f) = Some content ∧ md5_hex content = h.
Proof.
  intros He. unfold validate_model, bind. rewrite get_model_files_eq, He.
  apply validate_files_outcome.
Qed.

(** X14. A validation that returns true has written to the log only, and
    the model then passes the availability check: a valid model is an
    available one. *)
Theorem validate_model_implies_available name s s' :
  validate_model name s = (s', Ret true) →
  (∃ t, s' = set_trace t s)
  ∧ check_model_available name s' = (s', Ret true)
  ∧ name ∈ available_models (init s').1.
Proof.
  unfold validate_model, bind. rewrite get_model_files_eq.
  destruct (models s !! name) as [e|] eqn:He; [|done].
  intros [Hp [t ->]]%validate_files_true.
  assert (Hpresent : model_present (set_trace t s) name = true).
  { unfold model_present. simpl. rewrite He. exact Hp. }
  split; [eauto|]. split.
  - by rewrite check_model_available_eq, Hpresent.
  - by apply available_after_init.
Qed.

(** X15. The edges of [validate_model]: a name the catalog does not have
    raises [KeyError]; a model without required files (type [diffusers])
    is valid without the disk being read; a missing file gives false
    before any file is opened; and a file that declares a checksum, exists
    below the base directory, but cannot be opened under its catalog path
    (which is not joined with the base directory) raises
    [FileNotFoundError]. *)
Theorem validate_model_edges name s :
  (models s !! name = None → validate_model name s = (s, Raise (KeyError name)))
  ∧ (∀ e, models s !! name = Some e → resolved_files e = [] →
       validate_model name s = (s, Ret true))
  ∧ (∀ e fd rest, models s !! name = Some e → resolved_files e = fd :: rest →
       present s (path fd) = false →
       validate_model name s = (s, Ret false))
  ∧ (∀ e fd rest h, models s !! name = Some e → resolved_files e = fd :: rest →
       present s (path fd) = true → md5sum fd = Some h →
       read_file (world s) (path fd) = None →
       validate_model name s =
         (set_trace (trace s ++ [Log "debug" ("Getting md5sum of " +:+ path fd)]) s,
          Raise (FileNotFoundError (path fd)))).
Proof.
  unfold validate_model, bind. rewrite get_model_files_eq.
  split; [|split; [|split]].
  - by intros ->.
  - intros e -> ->. done.
  - intros e fd rest -> -> Hp. simpl. unfold bind, check_file_available, gets.
    fold (present s (path fd)). by rewrite Hp.
  - intros e fd rest h -> -> Hp Hsum Hread. simpl. unfold bind at 1, check_file_available, gets.
    fold (present s (path fd)). rewrite Hp. simpl.
    unfold bind. by rewrite validate_file_eq, Hsum, Hread.
Qed.

(** ** Downloading a model *)

(** X16. [download_model] of a name already listed as available only logs
    that and returns true: no request, no disk access, whether or not the
    catalog still has the name.  Of a name that is neither listed nor in
    the catalog it raises [KeyError] and changes nothing. *)
Theorem download_model_edges name s :
  (name ∈ available_models s →
     download_model name s =
       (set_trace (trace s ++ [Log "info" (name +:+ " is already available.")]) s, Ret true))
  ∧ (name ∉ available_models s → models s !! name = None →
     download_model name s = (s, Raise (KeyError name))).
Proof.
  split.
  - intros Hin. unfold download_model, bind at 1, gets at 1.
    by rewrite (proj2 (mem_true _ _) Hin).
  - intros Hnin Hnone. unfold download_model, bind at 1, gets at 1.
    rewrite (proj2 (mem_false _ _) Hnin).
    unfold bind, get_model_download, bind, gets. by rewrite Hnone.
Qed.

(** X17. A [download_model] that returns false has run the recipe and
    failed validation: both availability lists, the tainted list, the
    registry and the credentials are as before, so the model is still not
    available and a tainted model is still tainted. *)
Theorem download_model_false_keeps_lists name s s' :
  download_model name s = (s', Ret false) →
  frame s s' ∧ name ∉ available_models s'.
Proof.
  unfold download_model, bind at 1, gets at 1.
  destruct (mem name (available_models s)) eqn:Hmem.
  { unfold bind, logger, emit, modify. simpl. discriminate. }
  apply mem_false in Hmem. intros Hrun.
  apply bind_returns in Hrun as (s1 & download & Hd & Hrun).
  apply bind_returns in Hrun as (s2 & files & Hf & Hrun).
  apply bind_returns in Hrun as (s3 & [] & Hloop & Hrun).
  apply bind_returns in Hrun as (s4 & valid & Hvalid & Hrun).
  unfold get_model_download, bind, gets, subscript in Hd.
  destruct (models s !! name) as [e|] eqn:He; [|done].
  injection Hd as <- <-.
  rewrite get_model_files_eq, He in Hf. injection Hf as <- <-.
  pose proof (preserves_download_model_loop (frame s) name (resolved_files e) 0
                (m_download e) unbound (frame_stable s) s (frame_refl s)) as Hframe.
  rewrite Hloop in Hframe. simpl in Hframe.
  assert (Hframe4 : frame s s4).
  { unfold validate_model, bind in Hvalid. rewrite get_model_files_eq in Hvalid.
    destruct (models s3 !! name) as [e3|]; [|done].
    pose proof (preserves_validate_files (frame s) (resolved_files e3)
                  (stable_log_stable _ (frame_stable s)) s3 Hframe) as Hv.
    by rewrite Hvalid in Hv. }
  destruct valid; simpl in Hrun.
  - apply bind_returns in Hrun as (s5 & tainted & _ & Hrun).
    apply bind_returns in Hrun as (s6 & [] & _ & Hrun).
    apply bind_returns in Hrun as (s7 & ok & _ & Hrun). discriminate Hrun.
  - injection Hrun as <-. split; [done|].
    destruct Hframe4 as [Ha _]. by rewrite Ha.
Qed.

(** X18. A model of type [diffusers] has no required files, so a recipe
    step without the [file_path] key finds no file to pair with:
    [download_model] raises [IndexError] at the first such step, before
    any request or disk access. *)
Theorem download_model_diffusers_recipe name e d rest s :
  name ∉ available_models s →
  models s !! name = Some e →
  m_type e = "diffusers" →
  m_download e = d :: rest →
  file_path d = None →
  download_model name s = (s, Raise IndexError).
Proof.
  intros Hnin He Ht Hd Hfp.
  unfold download_model, bind at 1, gets at 1. rewrite (proj2 (mem_false _ _) Hnin).
  unfold bind at 1, get_model_download, bind at 1, gets at 1. rewrite He. simpl.
  unfold bind at 1. rewrite get_model_files_eq, He.
  unfold resolved_files. rewrite bool_decide_eq_true_2 by done.
  rewrite Hd. simpl. unfold bind, download_model_step, target_path, bind. by rewrite Hfp.
Qed.


Lemma kept_by_download_stable s0 : stable (kept_by_download s0).
Proof.
  unfold stable, log_stable. split; [|split].
  - intros s t Hs. exact Hs.
  - intros s w Hs. exact Hs.
  - intros s name i j target (Hl & Hh & He & Hb & Hd & Hv).
    repeat split; try done.
    intros n. rewrite <-Hv. simpl. rewrite lookup_alter.
    case_decide; [subst|done]. by destruct (models s !! n).
Qed.

(** X19. Whatever [download_model] does and however it ends, it leaves
    the registry, the credentials, the environment, the base directory and
    the dependency catalog as they were, and every model of the catalog
    keeps its type and its required files: only the recipes (the [delete]
    targets of git steps), the lists, the disk and the log can change. *)
Theorem download_model_keeps name s :
  kept_by_download s (download_model name s).1.
Proof.
  assert (Hpres : preserves (kept_by_download s) (download_model name)).
  { pose proof (kept_by_download_stable s) as Hst.
    unfold download_model, logger, get_model_download, get_model_files, validate_model,
      get_model_files.
    preserves_tac.
    - apply preserves_modify. intros ? Hk. exact Hk.
    - intros s1 Hk. rewrite init_state. exact Hk. }
  apply Hpres. by repeat split.
Qed.

(** ** Downloading a dependency *)

(** X20. [download_dependency] of a name already listed as installed only
    logs that and returns true; of a name that is neither listed nor in
    the dependency catalog it raises [KeyError] and changes nothing. *)
Theorem download_dependency_edges name s :
  (name ∈ available_dependencies s →
     download_dependency name s =
       (set_trace (trace s ++ [Log "info" (name +:+ " is already installed.")]) s, Ret true))
  ∧ (name ∉ available_dependencies s → dependencies s !! name = None →
     download_dependency name s = (s, Raise (KeyError name))).
Proof.
  split.
  - intros Hin. unfold download_dependency, bind at 1, gets at 1.
    by rewrite (proj2 (mem_true _ _) Hin).
  - intros Hnin Hnone. unfold download_dependency, bind at 1, gets at 1.
    rewrite (proj2 (mem_false _ _) Hnin).
    unfold bind, get_dependency_download, bind, gets. by rewrite Hnone.
Qed.

(** X21. The first step of a dependency recipe, when it is not a git step:
    without a file at its position it raises [IndexError], and without the
    [file_name] key it raises [UnboundLocalError], in both cases before
    any request or disk access. *)
Theorem download_dependency_first_step name e d rest s :
  name ∉ available_dependencies s →
  dependencies s !! name = Some e →
  d_download e = d :: rest →
  git d = false →
  (d_files e = [] → download_dependency name s = (s, Raise IndexError))
  ∧ (d_files e ≠ [] → file_name d = None →
     download_dependency name s = (s, Raise (UnboundLocalError "download_name"))).
Proof.
  intros Hnin He Hd Hg.
  assert (Hrun : download_dependency name s =
            (download_dependency_loop (d_files e) 0 (d :: rest) unbound >> init >> ret true) s).
  { unfold download_dependency, bind at 1, gets at 1.
    rewrite (proj2 (mem_false _ _) Hnin).
    unfold bind at 1, get_dependency_download, bind at 1, gets at 1. rewrite He. simpl.
    unfold bind at 1. by rewrite get_dependency_files_eq, He, Hd. }
  rewrite Hrun. simpl. rewrite Hg. split.
  - intros ->. reflexivity.
  - intros Hne Hname. destruct (d_files e) as [|f files]; [done|].
    unfold bind, download_dependency_step, bind, gets, bind_dependency_locals. simpl.
    by rewrite Hname.
Qed.

Lemma preserves_on_world_only (P : state W → Prop) (f : W → W) :
  (∀ s w, P s → P (set_world w s)) → preserves P (on_world f).
Proof. intros HP. apply preserves_modify. intros s Hs. by apply HP. Qed.

Lemma preserves_download_file_only (P : state W → Prop) url p :
  log_stable P → (∀ s w, P s → P (set_world w s)) → preserves P (download_file url p).
Proof.
  intros Hlog Hw. unfold download_file. pose proof (preserves_on_world_only P) as Hon.
  preserves_tac.
Qed.

Lemma preserves_download_dependency_loop_only (P : state W → Prop) files i steps l :
  log_stable P → (∀ s w, P s → P (set_world w s)) →
  preserves P (download_dependency_loop files i steps l).
Proof.
  intros Hlog Hw. pose proof (preserves_on_world_only P) as Hon.
  pose proof (preserves_download_file_only P) as Hfile.
  revert i l. induction steps as [|d steps IH]; intros i l; simpl.
  - preserves_tac.
  - destruct (git d); [unfold logger; preserves_tac|].
    apply preserves_bind; [|intros l'; apply IH].
    unfold download_dependency_step, logger, check_file_available. preserves_tac.
Qed.

(** X22. Whatever [download_dependency] does and however it ends, it
    leaves both catalogs, the tainted list, the registry, the credentials,
    the environment and the base directory as they were: only the two
    availability lists, the disk and the log can change. *)
Theorem download_dependency_keeps name s :
  let s' := (download_dependency name s).1 in
  models s' = models s ∧ dependencies s' = dependencies s
  ∧ tainted_models s' = tainted_models s ∧ loaded_models s' = loaded_models s
  ∧ hf_auth s' = hf_auth s ∧ environ s' = environ s
  ∧ model_base_path s' = model_base_path s.
Proof.
  set (P := λ s1 : state W,
         models s1 = models s ∧ dependencies s1 = dependencies s
         ∧ tainted_models s1 = tainted_models s ∧ loaded_models s1 = loaded_models s
         ∧ hf_auth s1 = hf_auth s ∧ environ s1 = environ s
         ∧ model_base_path s1 = model_base_path s).
  assert (Hlog : log_stable P) by (intros s1 t Hs; exact Hs).
  assert (Hw : ∀ s1 w, P s1 → P (set_world w s1)) by (intros s1 w Hs; exact Hs).
  assert (Hpres : preserves P (download_dependency name)).
  { pose proof (preserves_download_dependency_loop_only P) as Hloop.
    unfold download_dependency, logger, get_dependency_download, get_dependency_files.
    preserves_tac.
    intros s1 Hk. rewrite init_state. exact Hk. }
  apply Hpres. by repeat split.
Qed.

(** ** Bulk operations *)

Lemma download_each_nothing_to_do (check download : string → M bool) what names s t0 :
  (∀ n t, n ∈ names → check n (set_trace t s) = (set_trace t s, Ret true)) →
  download_each check download what names (set_trace t0 s) =
    (set_trace (t0 ++ map (λ n, Log "info" (n +:+ " is already " +:+ what +:+ ".")) names) s,
     Ret tt).
Proof.
  revert t0. induction names as [|n names IH]; intros t0 Hall; simpl.
  - by rewrite app_nil_r.
  - unfold bind at 1. rewrite Hall by left. simpl.
    unfold bind, logger, emit, modify. simpl.
    change (set_trace (t0 ++ [Log "info" (n +:+ " is already " +:+ what +:+ ".")])
              (set_trace t0 s))
      with (set_trace (t0 ++ [Log "info" (n +:+ " is already " +:+ what +:+ ".")]) s).
    rewrite IH by (intros; apply Hall; by right).
    by rewrite <-app_assoc.
Qed.

(** X23. When the files of every dependency of the catalog exist,
    [download_all_dependencies] returns true having made no request and
    touched neither the disk nor the lists: it only logs one line per
    dependency. *)
Theorem download_all_dependencies_nothing_to_do s :
  (∀ name e, dependencies s !! name = Some e → files_present s (d_files e) = true) →
  ∃ t, download_all_dependencies s = (set_trace (trace s ++ t) s, Ret true)
       ∧ http_requests t = []
       ∧ length t = size (dependencies s).
Proof.
  intros Hall.
  exists (map (λ n, Log "info" (n +:+ " is already installed.")) (dict_keys (dependencies s))).
  split; [|split].
  - unfold download_all_dependencies, bind at 1, gets at 1. unfold bind.
    replace s with (set_trace (trace s) s) at 2 by (by destruct s).
    rewrite download_each_nothing_to_do; [done|].
    intros n t Hn. apply dict_keys_elem in Hn as [e He].
    unfold check_dependency_available, bind at 1, gets at 1. simpl. rewrite He. simpl.
    unfold bind. rewrite get_dependency_files_eq. simpl. rewrite He.
    rewrite check_available_eq. f_equal. f_equal. by apply (Hall n e).
  - induction (dict_keys (dependencies s)) as [|n l IH]; [done|]. exact IH.
  - rewrite length_map. unfold dict_keys. by rewrite length_fmap, length_map_to_list.
Qed.

(** X24. [check_all_available] never raises or changes the manager, and it
    answers true exactly when [init] would list every model and every
    dependency of the catalogs as available. *)
Theorem check_all_available_iff s :
  ∃ b, check_all_available s = (s, Ret b)
    ∧ (b = true ↔
       (∀ name, is_Some (models s !! name) → name ∈ available_models (init s).1)
       ∧ (∀ name, is_Some (dependencies s !! name) →
            name ∈ available_dependencies (init s).1)).
Proof.
  unfold check_all_available.
  set (all_ok := fix all_ok (check : string → M bool) (names : list string) : M bool :=
         match names with
         | [] => ret true
         | name :: rest =>
             let! ok := check name in
             if negb ok then ret false else all_ok check rest
         end).
  assert (Hall : ∀ (check : string → M bool) (p : string → bool) names,
            (∀ n, check n s = (s, Ret (p n))) →
            all_ok check names s = (s, Ret (forallb p names))).
  { intros check p names Hc. induction names as [|n names IH]; simpl; [done|].
    unfold bind. rewrite Hc. destruct (p n); simpl; [exact IH | done]. }
  exists (forallb (model_present s) (dict_keys (models s))
          && forallb (dependency_present s) (dict_keys (dependencies s))).
  split.
  - unfold bind at 1, gets at 1. unfold bind at 1.
    rewrite (Hall _ (model_present s)) by (intros; apply check_model_available_eq).
    destruct (forallb (model_present s) (dict_keys (models s))); simpl; [|done].
    unfold bind, gets. apply Hall. intros n.
    unfold check_dependency_available, bind at 1, gets at 1, dependency_present.
    destruct (dependencies s !! n) as [e|] eqn:He; simpl; [|done].
    unfold bind. by rewrite get_dependency_files_eq, He, check_available_eq.
  - rewrite andb_true_iff, !forallb_forall, init_state. unfold after_init. simpl.
    split.
    + intros [Hm Hd]. split; intros n Hn.
      * rewrite list_elem_of_filter, dict_keys_elem, Is_true_true. split; [|done].
        apply Hm, list_elem_of_In, dict_keys_elem, Hn.
      * rewrite list_elem_of_filter, dict_keys_elem, Is_true_true. split; [|done].
        apply Hd, list_elem_of_In, dict_keys_elem, Hn.
    + intros [Hm Hd]. split; intros n Hn%list_elem_of_In%dict_keys_elem.
      * apply Hm in Hn. rewrite list_elem_of_filter, Is_true_true in Hn. tauto.
      * apply Hd in Hn. rewrite list_elem_of_filter, Is_true_true in Hn. tauto.
Qed.

(** ** Construction *)

(** X25. The constructor never raises because of the network or the
    remote documents: with or without remote refresh its only exception is
    the [TypeError] of [set_authentication] for non-empty credentials
    without a password.  With remote refresh it requests the model
    document, and the dependency document only once the first has been
    received and parsed. *)
Theorem new_outcome_and_requests w env base auth download disable :
  (new w env base auth download disable).2 =
    match auth with
    | Some d =>
        if bool_decide (d = ∅) then Ret tt
        else match d !! "password" with
             | Some _ => Ret tt
             | None => Raise (TypeError "str expected, not NoneType")
             end
    | None => Ret tt
    end
  ∧ http_requests (trace (new w env base auth download disable).1) =
      if download then
        match parse_models <$> http_get w remote_models with
        | Some (Some _) => [remote_models; remote_dependencies]
        | _ => [remote_models]
        end
      else [].
Proof.
  unfold new, constructor, bind, try_except, requests_get, bind, emit, modify, gets,
    logger, emit, modify, load_bundled_models, load_bundled_dependencies, modify,
    set_authentication, bind, gets, modify, on_world, modify, raise, ret, truthy.
  destruct download; simpl.
  - destruct (http_get w remote_models) as [r|]; simpl.
    + destruct (parse_models r) as [ms|]; simpl.
      * destruct (http_get w remote_dependencies); simpl.
        all: destruct auth as [d|]; simpl; [destruct (bool_decide (d = ∅)); simpl;
               [|destruct (d !! "password"); simpl] |]; by repeat case_match.
      * destruct auth as [d|]; simpl; [destruct (bool_decide (d = ∅)); simpl;
               [|destruct (d !! "password"); simpl] |]; by repeat case_match.
    + destruct auth as [d|]; simpl; [destruct (bool_decide (d = ∅)); simpl;
               [|destruct (d !! "password"); simpl] |]; by repeat case_match.
  - destruct auth as [d|]; simpl; [destruct (bool_decide (d = ∅)); simpl;
               [|destruct (d !! "password"); simpl] |]; by repeat case_match.
Qed.


(** ** Nothing left to fetch *)

Lemma plain_fetch_step_skipped name files i d f l s :
  is_fetch_step d = true →
  hf_auth_key d = false →
  file_path d = None →
  files !! i = Some f →
  path_exists (world s)
    (PosixPath.join (model_base_path s) (PosixPath.join (model_base_path s) (path f))) = true →
  name ∉ tainted_models s →
  ∃ l', download_model_step name files i d l s = (s, Ret l').
Proof.
  intros Hfetch Hauth Hfp Hfile Hexists Hnt.
  assert (Hurl : is_Some (file_url d)).
  { unfold is_fetch_step in Hfetch. repeat (apply andb_true_iff in Hfetch as [Hfetch _]).
    by apply bool_decide_eq_true in Hfetch. }
  destruct Hurl as [u Hu].
  assert (Htarget : target_path files i d s = (s, Ret (path f))).
  { unfold target_path. by rewrite Hfp, Hfile. }
  assert (Hlocals : bind_locals d l s =
            (s, Ret (Locals (Some u)
                       (match file_name d with Some n => Some n | None => download_name l end)
                       (download_path l)))).
  { unfold bind_locals, bind, gets. by rewrite Hu, Hauth, Hfp. }
  destruct (fetch_step_run name files i d l s _ _ Hfetch Htarget Hlocals) as (url & _ & Hrun).
  rewrite Hrun, Hexists, (proj2 (mem_false _ _) Hnt). eauto.
Qed.

Lemma plain_fetch_loop_skipped name files steps s :
  name ∉ tainted_models s →
  ∀ i l,
    (∀ k d, steps !! k = Some d →
       is_fetch_step d = true ∧ hf_auth_key d = false ∧ file_path d = None
       ∧ ∃ f, files !! (i + k) = Some f
           ∧ path_exists (world s)
               (PosixPath.join (model_base_path s)
                  (PosixPath.join (model_base_path s) (path f))) = true) →
    download_model_loop name files i steps l s = (s, Ret tt).
Proof.
  intros Hnt. induction steps as [|d steps IH]; intros i l Hall; simpl; [done|].
  destruct (Hall 0 d eq_refl) as (Hfetch & Hauth & Hfp & f & Hfile & Hexists).
  rewrite Nat.add_0_r in Hfile.
  destruct (plain_fetch_step_skipped name files i d f l s Hfetch Hauth Hfp Hfile Hexists Hnt)
    as [l' Hstep].
  unfold bind. rewrite Hstep. apply IH. intros k d' Hk.
  destruct (Hall (S k) d' Hk) as (? & ? & ? & f' & Hf' & ?).
  repeat split; try done. exists f'. split; [|done].
  by replace (S i + k) with (i + S k) by lia.
Qed.

Lemma validate_files_requests files s :
  http_requests (trace (validate_files files s).1) = http_requests (trace s)
  ∧ world (validate_files files s).1 = world s.
Proof.
  revert s. induction files as [|fd files IH]; intros s; simpl; [done|].
  unfold bind at 1 3, check_file_available, gets.
  destruct (path_exists _ _); simpl; [|done].
  unfold bind. rewrite validate_file_eq.
  destruct (md5sum fd) as [expected|]; simpl; [|apply IH].
  destruct (read_file (world s) (path fd)) as [content|]; simpl.
  - destruct (bool_decide (expected = md5_hex content)); simpl.
    + destruct (IH (set_trace (trace s ++ [Log "debug" ("Getting md5sum of " +:+ path fd)]) s))
        as [Hreq Hw].
      rewrite Hreq, Hw. simpl. rewrite http_requests_app. simpl. by rewrite app_nil_r.
    + rewrite http_requests_app. simpl. by rewrite app_nil_r.
  - rewrite http_requests_app. simpl. by rewrite app_nil_r.
Qed.

(** X26. Nothing left to fetch: for a model that is neither listed as
    available nor tainted, whose recipe consists of plain fetch steps
    paired with its files, whose target files all exist and which passes
    validation, [download_model] requests nothing and leaves the disk
    alone; it recomputes the lists, with the model now available, and
    returns true unless the credential check of [init] raises. *)
Theorem download_model_nothing_to_fetch name e s :
  name ∉ available_models s →
  name ∉ tainted_models s →
  models s !! name = Some e →
  (∀ k d, m_download e !! k = Some d →
     is_fetch_step d = true ∧ hf_auth_key d = false ∧ file_path d = None
     ∧ ∃ f, resolved_files e !! k = Some f
         ∧ path_exists (world s)
             (PosixPath.join (model_base_path s)
                (PosixPath.join (model_base_path s) (path f))) = true) →
  (validate_model name s).2 = Ret true →
  let r := download_model name s in
  r.2 = match credentials_outcome (hf_auth s) with
        | Ret _ => Ret true
        | Raise err => Raise err
        end
  ∧ http_requests (trace r.1) = http_requests (trace s)
  ∧ world r.1 = world s
  ∧ name ∈ available_models r.1.
Proof.
  intros Hna Hnt He Hsteps Hvalid.
  assert (Hv := Hvalid).
  unfold validate_model, bind in Hv. rewrite get_model_files_eq, He in Hv.
  destruct (validate_files (resolved_files e) s) as [s1 o] eqn:Hrun1. simpl in Hv. subst o.
  pose proof (validate_files_requests (resolved_files e) s) as [Hreq Hw].
  rewrite Hrun1 in Hreq, Hw. simpl in Hreq, Hw.
  destruct (validate_files_true _ _ _ Hrun1) as [Hpresent [t Hs1]].
  assert (Hnt1 : mem name (tainted_models s1) = false).
  { subst s1. by apply mem_false. }
  assert (Hauth : hf_auth s1 = hf_auth s) by (by subst s1).
  assert (Hrun : download_model name s =
            (after_init s1,
             match credentials_outcome (hf_auth s) with
             | Ret _ => Ret true
             | Raise err => Raise err
             end)).
  { unfold download_model, bind at 1, gets at 1. rewrite (proj2 (mem_false _ _) Hna).
    unfold bind at 1, get_model_download, bind at 1, gets at 1. rewrite He. simpl.
    unfold bind at 1. rewrite get_model_files_eq, He.
    unfold bind at 1.
    rewrite (plain_fetch_loop_skipped name (resolved_files e) (m_download e) s Hnt 0 unbound)
      by exact Hsteps.
    unfold bind at 1, validate_model, bind at 1. rewrite get_model_files_eq, He, Hrun1. simpl.
    unfold bind at 1, gets at 1. rewrite Hnt1. unfold bind. simpl. rewrite init_eq, Hauth.
    by destruct (credentials_outcome (hf_auth s)). }
  intros r. subst r. rewrite Hrun. simpl.
  split; [done|]. split; [done|]. split; [done|].
  rewrite list_elem_of_filter, dict_keys_elem, Is_true_true. subst s1.
  unfold model_present. simpl. rewrite He. eauto.
Qed.

(** ** Filtering by metadata *)

Section Filtering.

Context {value : Type} (value_eq : value → value → bool)
  (entry_get : model_entry → string → value) (py_true : value).

Lemma matching_lookup keyword wanted (m : gmap string model_entry) model :
  matching value_eq entry_get keyword wanted m !! model =
    match m !! model with
    | Some e => if value_eq (entry_get e keyword) wanted then Some e else None
    | None => None
    end.
Proof.
  unfold matching.
  apply (map_fold_weak_ind
           (λ (r m : gmap string model_entry),
              r !! model = match m !! model with
                           | Some e => if value_eq (entry_get e keyword) wanted
                                       then Some e else None
                           | None => None
                           end)).
  - by rewrite !lookup_empty.
  - intros k e m0 r Hk IH.
    destruct (decide (k = model)) as [->|Hne].
    + rewrite lookup_insert_eq. rewrite Hk in IH.
      destruct (value_eq (entry_get e keyword) wanted); [by rewrite lookup_insert_eq | done].
    + rewrite (lookup_insert_ne m0) by done. rewrite <-IH.
      destruct (value_eq (entry_get e keyword) wanted); [by rewrite lookup_insert_ne | done].
Qed.

Lemma filter_models_lookup kwargs (m : gmap string model_entry) model e :
  filter_models value_eq entry_get kwargs m !! model = Some e ↔
  m !! model = Some e
  ∧ Forall (λ kv, value_eq (entry_get e kv.1) kv.2 = true) kwargs.
Proof.
  revert m. induction kwargs as [|[keyword wanted] kwargs IH]; intros m; simpl.
  - split; [by intros ? | by intros [? _]].
  - rewrite IH, matching_lookup, Forall_cons. simpl.
    destruct (m !! model) as [e0|]; [|split; by intros [? _]].
    destruct (value_eq (entry_get e0 keyword) wanted) eqn:Hv; split.
    + intros [[= ->] ?]. done.
    + intros [[= ->] [? ?]]. done.
    + intros [? _]. done.
    + intros [[= ->] [? ?]]. congruence.
Qed.

(** X27. [get_filtered_models] returns the entries of the model catalog
    that match every given constraint and nothing else: without
    constraints the whole catalog, and the same dict in whatever order the
    constraints are given.  [get_filtered_model_names] lists exactly the
    names of these entries, each once.  Neither changes the manager. *)
Theorem get_filtered_models_spec kwargs s :
  (∀ model e,
     filter_models value_eq entry_get kwargs (models s) !! model = Some e ↔
     models s !! model = Some e
     ∧ Forall (λ kv, value_eq (entry_get e kv.1) kv.2 = true) kwargs)
  ∧ get_filtered_models value_eq entry_get [] s = (s, Ret (models s))
  ∧ (∀ kwargs', kwargs ≡ₚ kwargs' →
       get_filtered_models value_eq entry_get kwargs' s =
       get_filtered_models value_eq entry_get kwargs s)
  ∧ (∃ names,
       get_filtered_model_names value_eq entry_get kwargs s = (s, Ret names)
       ∧ NoDup names
       ∧ ∀ model, model ∈ names ↔
           is_Some (filter_models value_eq entry_get kwargs (models s) !! model)).
Proof.
  split; [|split; [|split]].
  - intros model e. apply filter_models_lookup.
  - reflexivity.
  - intros kwargs' Hperm. unfold get_filtered_models, gets. f_equal. f_equal.
    apply map_eq. intros model. apply option_eq. intros e.
    rewrite !filter_models_lookup. by rewrite Hperm.
  - eexists. split; [reflexivity|]. split; [apply dict_keys_NoDup|].
    intros model. apply dict_keys_elem.
Qed.

(** X28. When every dependency and every model flagged [download_all] has
    its files on disk, [download_all] returns true having requested
    nothing: it logs one line per dependency and per flagged model and
    leaves the lists and the disk alone.  Models without the flag are not
    looked at. *)
Theorem download_all_nothing_to_do s :
  (∀ name e, dependencies s !! name = Some e → files_present s (d_files e) = true) →
  (∀ name e, models s !! name = Some e →
     value_eq (entry_get e "download_all") py_true = true →
     files_present s (resolved_files e) = true) →
  ∃ t, download_all value_eq entry_get py_true s = (set_trace (trace s ++ t) s, Ret true)
       ∧ http_requests t = [].
Proof.
  intros Hdeps Hmodels.
  destruct (download_all_dependencies_nothing_to_do s Hdeps) as (t1 & Hrun1 & Hreq1 & _).
  set (names := dict_keys (filter_models value_eq entry_get [("download_all", py_true)] (models s))).
  exists (t1 ++ map (λ n, Log "info" (n +:+ " is already downloaded.")) names).
  split.
  - unfold download_all, bind at 1. rewrite Hrun1.
    unfold bind at 1, download_all_models, bind at 1, get_filtered_model_names,
      bind at 1, get_filtered_models, gets. simpl.
    fold names. unfold bind at 1.
    rewrite download_each_nothing_to_do.
    + by rewrite app_assoc.
    + intros n t Hn. apply dict_keys_elem in Hn as [e He].
      apply (filter_models_lookup [("download_all", py_true)]) in He as [He Hflag].
      apply Forall_cons in Hflag as [Hflag _]. simpl in Hflag.
      rewrite check_model_available_eq. f_equal. f_equal.
      unfold model_present. simpl. rewrite He. by apply (Hmodels n e).
  - rewrite http_requests_app, Hreq1. simpl.
    induction names as [|n l IH]; [done|]. exact IH.
Qed.

End Filtering.

(** ** Git post-processing *)

Lemma store_delete_lookup name i j target s e d pps :
  models s !! name = Some e →
  m_download e !! i = Some d →
  post_process_key d = Some pps →
  ∃ e' d', models (store_delete name i j target s) !! name = Some e'
    ∧ m_download e' !! i = Some d'
    ∧ post_process_key d' = Some (alter (λ _, PostProcess (Some target)) j pps).
Proof.
  intros He Hd Hpp. unfold store_delete. simpl.
  rewrite lookup_alter, decide_True by done. rewrite He. simpl.
  eexists _, _. split; [done|]. simpl.
  rewrite list_lookup_alter_eq, Hd. simpl. split; [done|]. simpl. by rewrite Hpp.
Qed.

(** The delete targets as [run_post_process] stores them. *)
Lemma run_post_process_stores name i pps :
  ∀ j done s s' e d,
    models s !! name = Some e →
    m_download e !! i = Some d →
    post_process_key d = Some (done ++ pps) →
    length done = j →
    run_post_process name i j pps s = (s', Ret tt) →
    ∃ e' d', models s' !! name = Some e'
      ∧ m_download e' !! i = Some d'
      ∧ post_process_key d' =
          Some (done ++ map (λ pp, PostProcess (PosixPath.join (model_base_path s) <$> delete_ pp))
                          pps)
      ∧ model_base_path s' = model_base_path s.
Proof.
  induction pps as [|pp pps IH]; intros j done s s' e d He Hd Hpp Hj; simpl.
  - intros [= <-]. eauto 10.
  - intros Hrun. apply bind_returns in Hrun as (s1 & [] & Hstep & Hrest).
    destruct pp as [[rel|]]; simpl in *.
    + destruct (store_delete_lookup name i j (PosixPath.join (model_base_path s) rel)
                  s e d _ He Hd Hpp) as (e1 & d1 & He1 & Hd1 & Hpp1).
      assert (Hs1 : models s1
                    = models (store_delete name i j (PosixPath.join (model_base_path s) rel) s)
                    ∧ model_base_path s1 = model_base_path s).
      { unfold bind, gets, modify, logger, emit, on_world, modify in Hstep. simpl in Hstep.
        destruct (shutil_rmtree (world s) (PosixPath.join (model_base_path s) rel)) as [w' r].
        destruct r; unfold ret, raise in Hstep; simplify_eq/=; done. }
      destruct Hs1 as [Hm1 Hb1].
      rewrite <-Hm1 in He1.
      assert (Halter : alter (λ _, PostProcess (Some (PosixPath.join (model_base_path s) rel))) j
                         (done ++ PostProcess (Some rel) :: pps)
                       = (done ++ [PostProcess (Some (PosixPath.join (model_base_path s) rel))])
                         ++ pps).
      { subst j. rewrite <-app_assoc. simpl.
        by rewrite alter_app_r_alt, Nat.sub_diag by lia. }
      rewrite Halter in Hpp1.
      destruct (IH (S j) (done ++ [PostProcess (Some (PosixPath.join (model_base_path s) rel))])
                  s1 s' e1 d1 He1 Hd1 Hpp1)
        as (e' & d' & He' & Hd' & Hpp' & Hb'); [rewrite length_app; simpl; lia | done |].
      exists e', d'. rewrite Hpp', Hb1, <-app_assoc. simpl. rewrite Hb'. done.
    + injection Hstep as <-.
      replace (done ++ PostProcess None :: pps) with ((done ++ [PostProcess None]) ++ pps) in Hpp
        by (by rewrite <-app_assoc).
      destruct (IH (S j) (done ++ [PostProcess None]) s s' e d He Hd Hpp)
        as (e' & d' & He' & Hd' & Hpp' & Hb'); [rewrite length_app; simpl; lia | done |].
      exists e', d'. rewrite Hpp', <-app_assoc. done.
Qed.

(** X30. The post-processing of a git step writes into the catalog: once
    it has returned, every [delete] target of the stored recipe is the
    original one joined with the base directory, so that the catalog no
    longer holds the paths of the reference document. *)
Theorem post_process_rewrites_catalog name i pps s s' e d :
  models s !! name = Some e →
  m_download e !! i = Some d →
  post_process_key d = Some pps →
  run_post_process name i 0 pps s = (s', Ret tt) →
  ∃ e' d', models s' !! name = Some e'
    ∧ m_download e' !! i = Some d'
    ∧ post_process_key d' =
        Some (map (λ pp, PostProcess (PosixPath.join (model_base_path s) <$> delete_ pp)) pps).
Proof.
  intros He Hd Hpp Hrun.
  destruct (run_post_process_stores name i pps 0 [] s s' e d He Hd Hpp eq_refl Hrun)
    as (e' & d' & He' & Hd' & Hpp' & _).
  eauto.
Qed.

(** ** The BLIP loader *)

Section Loader.

Context (blip_decoder : W → string → string → Z → option nat)
  (to_device : nat → bool → string → nat).

(** X29. [BLIPModelManager.__call__] raises [KeyError] for a model the
    catalog does not have and [IndexError] for one without required files
    (type [diffusers]), with the registry untouched.  Otherwise the loader
    is given the catalog path of the first file, as it is and not joined
    with the base directory, and the variant [base] only for the model
    named [BLIP]; what it builds is registered under the model's name, on
    [cuda:<gpu_id>] when the device is [cuda] and on [cpu] for any other
    device, replacing an entry of that name. *)
Theorem BLIPModelManager_call_spec name precision device gpu_id size s :
  let call := BLIPModelManager_call blip_decoder to_device name precision device gpu_id size in
  (models s !! name = None → call s = (s, Raise (KeyError name)))
  ∧ (∀ e, models s !! name = Some e → resolved_files e = [] →
       call s = (s, Raise IndexError))
  ∧ (∀ e f rest, models s !! name = Some e → resolved_files e = f :: rest →
       let vit := if bool_decide (name = "BLIP") then "base" else "large" in
       let dev := if bool_decide (device = "cuda") then "cuda:" +:+ pretty gpu_id else "cpu" in
       call s =
         match blip_decoder (world s) (path f) vit size with
         | Some m =>
             (set_loaded_models
                (<[name := LoadedEntry (to_device m (negb (bool_decide (precision = "fp32"))) dev)
                             dev]> (loaded_models s)) s,
              Ret true)
         | None => (s, Raise (OSError "blip_decoder"))
         end).
Proof.
  assert (Hfiles : ∀ files, get_model_files name s = (s, files) →
            BLIPModelManager_call blip_decoder to_device name precision device gpu_id size s =
            match files with
            | Ret (f :: _) =>
                match blip_decoder (world s) (path f)
                        (if bool_decide (name = "BLIP") then "base" else "large") size with
                | Some m =>
                    (set_loaded_models
                       (<[name := LoadedEntry
                                    (to_device m (negb (bool_decide (precision = "fp32")))
                                       (if bool_decide (device = "cuda")
                                        then "cuda:" +:+ pretty gpu_id else "cpu"))
                                    (if bool_decide (device = "cuda")
                                     then "cuda:" +:+ pretty gpu_id else "cpu")]>
                          (loaded_models s)) s,
                     Ret true)
                | None => (s, Raise (OSError "blip_decoder"))
                end
            | Ret [] => (s, Raise IndexError)
            | Raise err => (s, Raise err)
            end).
  { intros files Hf. unfold BLIPModelManager_call, bind at 1. rewrite Hf.
    destruct files as [[|f rest]|err]; try done. simpl.
    unfold bind, gets, modify. simpl.
    by destruct (blip_decoder (world s) (path f) _ size). }
  pose proof (get_model_files_eq name s) as Hget.
  split; [|split].
  - intros Hnone. rewrite Hnone in Hget. by rewrite (Hfiles _ Hget).
  - intros e He Hr. rewrite He, Hr in Hget. by rewrite (Hfiles _ Hget).
  - intros e f rest He Hr. rewrite He, Hr in Hget. by rewrite (Hfiles _ Hget).
Qed.

End Loader.

End Properties.

(** * The code on concrete inputs *)

(** Closes a conjunction of equations that hold by evaluation. *)
Ltac by_evaluation := repeat apply conj; try (vm_compute; reflexivity).

Example join_relative : PosixPath.join "/home/u/.nataili" "models/a.pth" = "/home/u/.nataili/models/a.pth".
Proof. reflexivity. Qed.

Example join_absolute : PosixPath.join "/base" "/base/a.pth" = "/base/a.pth".
Proof. reflexivity. Qed.

Example join_twice_relative : PosixPath.join "base" (PosixPath.join "base" "a.pth") = "base/base/a.pth".
Proof. reflexivity. Qed.

(** Under an absolute base directory (the default one is), joining the
    base a second time changes nothing: the file a fetch step checks and
    writes is then the file the availability check looks for. *)
Lemma join_absolute_base base rel :
  PosixPath.starts_with_sep base = true →
  PosixPath.join base (PosixPath.join base rel) = PosixPath.join base rel.
Proof.
  intros Hbase. unfold PosixPath.join at 1.
  assert (Habs : PosixPath.starts_with_sep (PosixPath.join base rel) = true).
  { unfold PosixPath.join. destruct (PosixPath.starts_with_sep rel) eqn:Hrel; [done|].
    destruct base as [|c base]; [discriminate|].
    by destruct (bool_decide (String c base = "") || PosixPath.ends_with_sep (String c base)). }
  by rewrite Habs.
Qed.

Example dirname_file : PosixPath.dirname "/base/models/a.pth" = "/base/models".
Proof. reflexivity. Qed.

Example dirname_root : PosixPath.dirname "/a.pth" = "/".
Proof. reflexivity. Qed.

Example dirname_plain : PosixPath.dirname "a.pth" = "".
Proof. reflexivity. Qed.


Lemma fresh_new :
  new Sim.served ∅ None None true true = (Sim.fresh, Ret tt).
Proof. by_evaluation. Qed.

Lemma fresh_reachable : reachable Sim.fresh.
Proof. exact (reachable_new _ _ _ _ _ _ _ fresh_new). Qed.

Lemma retainted_reachable : reachable Sim.retainted.
Proof. unfold Sim.retainted. do 3 apply reachable_call. apply fresh_reachable. Qed.

Lemma retainted_lists :
  available_models Sim.retainted = ["m"] ∧ tainted_models Sim.retainted = ["m"].
Proof. by_evaluation. Qed.

(** C1, as stated, fails: after [init], [taint_model("m")] and [init]
    again, the model [m] (whose files are still there) is listed both as
    available and as tainted. *)
Lemma init_relists_tainted : reachable Sim.retainted ∧ ¬ exclusive Sim.retainted.
Proof.
  split; [apply retainted_reachable|].
  intros Hex. apply (Hex "m"). destruct retainted_lists as [-> ->].
  split; apply list_elem_of_singleton; reflexivity.
Qed.

(** Witness of [exclusive_unless_recomputed]: tainting [m] right after the
    first [init]. *)
Lemma exclusive_unless_recomputed_witness :
  let s := run Call_init Sim.fresh in
  reachable s ∧ exclusive s ∧ recomputes (Call_taint_model "m") = false
  ∧ exclusive (run (Call_taint_model "m") s).
Proof.
  assert (Hr : reachable (run Call_init Sim.fresh)).
  { apply reachable_call. exact (reachable_new _ _ _ _ _ _ _ fresh_new). }
  assert (Hex : exclusive (run Call_init Sim.fresh)).
  { intros n [_ Ht]. change (n ∈ @nil string) in Ht. inversion Ht. }
  split; [exact Hr|]. split; [exact Hex|]. split; [reflexivity|].
  exact (proj2 exclusive_unless_recomputed (Call_taint_model "m") _ Hr Hex eq_refl).
Defined.

(** C2: on a registry that holds a model, [unload_all_models] does not
    return: its loop deletes one entry and the dict iterator then raises
    [RuntimeError].  With two models loaded one of them stays loaded. *)
Theorem unload_all_models_raises :
  unload_all_models Sim.one_loaded =
    (set_loaded_models ∅ Sim.one_loaded,
     Raise (RuntimeError "dictionary changed size during iteration"))
  ∧ (unload_all_models Sim.two_loaded).2 =
      Raise (RuntimeError "dictionary changed size during iteration")
  ∧ size (loaded_models (unload_all_models Sim.two_loaded).1) = 1.
Proof. by_evaluation. Qed.

(** C3: with remote refresh enabled and both requests answered, the model
    catalog is the remote one, but the dependency catalog is the bundled
    one (empty here) and not what the remote document lists. *)
Theorem new_ignores_remote_dependencies :
  (new Sim.served ∅ None None true true).2 = Ret tt
  ∧ http_requests (trace Sim.fresh) = [remote_models; remote_dependencies]
  ∧ (parse_models <$> http_get Sim.served remote_models) = Some (Some (models Sim.fresh))
  ∧ (parse_dependencies <$> http_get Sim.served remote_dependencies)
      = Some (Some {[ "d" := DependencyEntry [] [] ]})
  ∧ dependencies Sim.fresh = bundled_dependencies Sim.served
  ∧ dependencies Sim.fresh = ∅.
Proof. by_evaluation. Qed.

(** C4, as stated, fails for [get_model]: for a name the model catalog
    does not have it returns [None] and raises nothing. *)
Lemma get_model_absent_returns_none :
  models Sim.fresh !! "x" = None
  ∧ get_model "x" Sim.fresh = (Sim.fresh, Ret None)
  ∧ ∀ e, (get_model "x" Sim.fresh).2 ≠ Raise e.
Proof. by_evaluation. intros e. discriminate. Qed.

(** C5, as stated, fails: for a recipe made of a git step and a fetch
    step whose file is missing, [download_dependency] returns [True]
    having requested nothing, although the fetch step on its own would
    have requested its URL. *)
Lemma git_step_skips_the_rest :
  let s' := (download_dependency "dep" Sim.git_then_fetch).1 in
  (download_dependency "dep" Sim.git_then_fetch).2 = Ret true
  ∧ trace s' = [Log "warning" "git download not implemented yet"]
  ∧ http_requests (trace s') = []
  ∧ world s' = world Sim.git_then_fetch
  ∧ http_requests
      (trace (download_dependency_loop
                [FileDetails "a" None; FileDetails "b" None] 1 [Sim.fetch_step] unbound
                Sim.git_then_fetch).1) = ["http://x/b"].
Proof. by_evaluation. Qed.

(** Witness of [git_step_ends_recipe]: a fetch step, a git step and a
    second fetch step.  The first file is requested and written, the
    warning is logged, and the last file is never requested. *)
Lemma git_step_ends_recipe_witness :
  let s := Cases.fetch_then_git in
  let r := download_dependency "dep" s in
  dependencies s !! "dep" = Some Cases.fetch_git_fetch
  ∧ ("dep" ∉ available_dependencies s)
  ∧ Forall (λ d, git d = false) [Sim.fetch_step]
  ∧ git Sim.git_step = true
  ∧ r = ((dependency_steps (d_files Cases.fetch_git_fetch) 0 [Sim.fetch_step] unbound >>
          logger "warning" "git download not implemented yet" >>
          init >>
          ret true) s)
  ∧ r.2 = Ret true
  ∧ http_requests (trace r.1) = ["http://x/b"]
  ∧ Sim.files (world r.1) = {[ "/base/b" := list_byte_of_string "B" ]}
  ∧ last (trace r.1) = Some (Log "warning" "git download not implemented yet").
Proof.
  assert (He : dependencies Cases.fetch_then_git !! "dep" = Some Cases.fetch_git_fetch)
    by reflexivity.
  assert (Hna : "dep" ∉ available_dependencies Cases.fetch_then_git)
    by (intros Hin; inversion Hin).
  assert (Hpre : Forall (λ d, git d = false) [Sim.fetch_step])
    by (repeat constructor).
  split; [exact He|]. split; [exact Hna|]. split; [exact Hpre|]. split; [reflexivity|].
  split.
  { exact (git_step_ends_recipe "dep" _ [Sim.fetch_step] Sim.git_step [Cases.late_fetch_step]
             Cases.fetch_then_git He Hna eq_refl Hpre eq_refl). }
  by_evaluation.
Defined.

(** C6: with credentials that hold a password but no username, [init]
    raises [KeyError] and not the [ValueError] it raises for missing
    credentials. *)
Theorem init_password_only_raises_KeyError :
  hf_auth Sim.password_only = Some {[ "password" := "secret" ]}
  ∧ (init Sim.password_only).2 = Raise (KeyError "username").
Proof. by_evaluation. Qed.

(** C7, as stated, fails: an authenticated fetch step of a manager
    without credentials requests nothing, although its file is missing and
    the model is not tainted; [download_model] raises [TypeError]. *)
Lemma auth_step_without_credentials :
  let s := Cases.no_credentials in
  let r := download_model "A" s in
  models s !! "A" = Some Cases.auth_model
  ∧ is_fetch_step Cases.auth_fetch = true
  ∧ hf_auth s = None
  ∧ path_exists (world s) "/base/a.bin" = false
  ∧ tainted_models s = []
  ∧ r = (s, Raise (TypeError "'NoneType' object is not subscriptable"))
  ∧ http_requests (trace r.1) = http_requests (trace s)
  ∧ ¬ (http_requests (trace r.1) = http_requests (trace s)
       ↔ path_exists (world s) "/base/a.bin" = true ∧ "A" ∉ tainted_models s).
Proof.
  by_evaluation. intros [Hex _]. destruct (Hex eq_refl) as [Hp _]. discriminate Hp.
Qed.

(** Witness of [fetch_skipped_iff]: the second fetch step of [N] on an
    empty disk, reached after the first one has fetched its file. *)
Lemma fetch_skipped_iff_witness :
  let s := Cases.two_fetches in
  let s1 := (model_steps "N" (resolved_files Cases.two_files) 0 [Sim.m_fetch] unbound s).1 in
  let l1 := Locals (Some "http://x/m.bin") None None in
  let l2 := Locals (Some "http://x/n.bin") None None in
  let step := download_model_step "N" (resolved_files Cases.two_files) 1 Cases.n_fetch l1 in
  ("N" ∉ available_models s)
  ∧ models s !! "N" = Some Cases.two_files
  ∧ model_steps "N" (resolved_files Cases.two_files) 0 [Sim.m_fetch] unbound s = (s1, Ret l1)
  ∧ is_fetch_step Cases.n_fetch = true
  ∧ target_path (resolved_files Cases.two_files) 1 Cases.n_fetch s1 = (s1, Ret "n.bin")
  ∧ bind_locals Cases.n_fetch l1 s1 = (s1, Ret l2)
  ∧ download_model "N" s =
      (let! l := step in
       download_model_loop "N" (resolved_files Cases.two_files) 2 [] l >>
       download_model_finish "N") s1
  ∧ (http_requests (trace (step s1).1) = http_requests (trace s1)
     ↔ path_exists (world s1) "/base/n.bin" = true ∧ "N" ∉ tainted_models s1)
  ∧ http_requests (trace s1) = ["http://x/m.bin"]
  ∧ http_requests (trace (step s1).1) = ["http://x/m.bin"; "http://x/n.bin"].
Proof.
  set (s := Cases.two_fetches).
  set (s1 := (model_steps "N" (resolved_files Cases.two_files) 0 [Sim.m_fetch] unbound s).1).
  set (l1 := Locals (Some "http://x/m.bin") None None).
  set (l2 := Locals (Some "http://x/n.bin") None None).
  assert (Hna : "N" ∉ available_models s) by (intros Hin; inversion Hin).
  assert (He : models s !! "N" = Some Cases.two_files) by reflexivity.
  assert (Hpre : model_steps "N" (resolved_files Cases.two_files) 0 [Sim.m_fetch] unbound s
                 = (s1, Ret l1)) by (vm_compute; reflexivity).
  assert (Hfetch : is_fetch_step Cases.n_fetch = true) by reflexivity.
  assert (Htarget : target_path (resolved_files Cases.two_files) 1 Cases.n_fetch s1
                    = (s1, Ret "n.bin")) by reflexivity.
  assert (Hlocals : bind_locals Cases.n_fetch l1 s1 = (s1, Ret l2)) by reflexivity.
  pose proof (fetch_skipped_iff "N" Cases.two_files [Sim.m_fetch] Cases.n_fetch [] s s1 l1
                "n.bin" Hna He eq_refl Hpre Hfetch Htarget) as (Hrun & Hiff & _).
  cbn zeta.
  split; [exact Hna|]. split; [exact He|]. split; [exact Hpre|]. split; [exact Hfetch|].
  split; [exact Htarget|]. split; [exact Hlocals|].
  split; [exact Hrun|]. split; [exact (proj1 (Hiff l2 Hlocals))|].
  by_evaluation.
Defined.

(** The scenario of the specification: on an empty disk the step requests
    the file; with the file in place it requests nothing, unless the model
    is tainted. *)
Example fetch_scenario :
  let step s := (download_model_step "M" [Sim.m_bin] 0 Sim.m_fetch unbound s).1 in
  let stale := {[ "/base/m.bin" := list_byte_of_string "old" ]} in
  http_requests (trace (step (Sim.scenario ∅))) = ["http://x/m.bin"]
  ∧ Sim.files (world (step (Sim.scenario ∅))) !! "/base/m.bin" = Some (list_byte_of_string "abc")
  ∧ http_requests (trace (step (Sim.scenario stale))) = []
  ∧ http_requests (trace (step (set_tainted_models ["M"] (Sim.scenario stale))))
    = ["http://x/m.bin"].
Proof. by_evaluation. Qed.

(** Witness of [validate_file_checksum]: the file [m.bin] with the content
    its checksum declares, and with its last byte changed. *)
Lemma validate_file_checksum_witness :
  let good := Sim.scenario {[ "m.bin" := [x61; x62; x63] ]} in
  let bad := Sim.scenario {[ "m.bin" := [x61; x62; x64] ]} in
  validate_file (FileDetails "m.bin" None) bad = (bad, Ret true)
  ∧ (validate_file Sim.m_bin good).2 = Ret true
  ∧ (validate_file Sim.m_bin bad).2 = Ret false.
Proof.
  split; [|split].
  - exact (proj1 (validate_file_checksum (FileDetails "m.bin" None)
                    (Sim.scenario {[ "m.bin" := [x61; x62; x64] ]})) eq_refl).
  - exact (proj1 (proj2 (validate_file_checksum Sim.m_bin
                           (Sim.scenario {[ "m.bin" := [x61; x62; x63] ]})))
             [x61; x62; x63] eq_refl eq_refl).
  - refine (proj2 (proj2 (validate_file_checksum Sim.m_bin
                            (Sim.scenario {[ "m.bin" := [x61; x62; x64] ]})))
              [x61; x62; x63] 2 x64 eq_refl _ eq_refl).
    intros Heq. vm_compute in Heq. discriminate Heq.
Defined.



(** Witness of [diffusers_always_available]: the model [m]. *)
Lemma diffusers_always_available_witness :
  let e := ModelEntry "diffusers" [] [] in
  models Sim.fresh !! "m" = Some e
  ∧ m_type e = "diffusers"
  ∧ get_model_files "m" Sim.fresh = (Sim.fresh, Ret [])
  ∧ check_available [] Sim.fresh = (Sim.fresh, Ret true)
  ∧ check_model_available "m" Sim.fresh = (Sim.fresh, Ret true)
  ∧ "m" ∈ available_models (init Sim.fresh).1.
Proof.
  assert (He : models Sim.fresh !! "m" = Some (ModelEntry "diffusers" [] []))
    by (vm_compute; reflexivity).
  split; [exact He|]. split; [reflexivity|].
  exact (diffusers_always_available "m" _ Sim.fresh He eq_refl).
Defined.

(** Witness of [set_authentication_keeps_credentials]: [None] after a
    password was stored. *)
Lemma set_authentication_keeps_credentials_witness :
  truthy (hf_auth Sim.password_only) = true
  ∧ truthy None = false
  ∧ set_authentication None Sim.password_only = (Sim.password_only, Ret tt).
Proof.
  assert (H1 : truthy (hf_auth Sim.password_only) = true) by (vm_compute; reflexivity).
  split; [exact H1|]. split; [reflexivity|].
  exact (set_authentication_keeps_credentials None Sim.password_only H1 eq_refl).
Defined.

(** Witness of [set_authentication_stores]: a password alone. *)
Lemma set_authentication_stores_witness :
  let d : gmap string string := {[ "password" := "secret" ]} in
  d ≠ ∅
  ∧ hf_auth (set_authentication (Some d) Sim.fresh).1 = Some d
  ∧ (has_authentication (set_authentication (Some d) Sim.fresh).1).2 = Ret true.
Proof.
  assert (Hd : ({[ "password" := "secret" ]} : gmap string string) ≠ ∅)
    by apply map_non_empty_singleton.
  split; [exact Hd|].
  exact (proj2 (set_authentication_stores _ Sim.fresh Hd)).
Defined.

(** Witness of [empty_credentials_break_init]: a manager without
    credentials. *)
Lemma empty_credentials_break_init_witness :
  truthy (hf_auth Sim.fresh) = false
  ∧ set_authentication (Some ∅) Sim.fresh = (set_hf_auth (Some ∅) Sim.fresh, Ret tt)
  ∧ (init (set_hf_auth (Some ∅) Sim.fresh)).2
    = Raise (ValueError "hf_auth must contain username and password").
Proof.
  assert (H1 : truthy (hf_auth Sim.fresh) = false) by (vm_compute; reflexivity).
  split; [exact H1|].
  destruct (empty_credentials_break_init Sim.fresh H1) as [Hset Hinit].
  split; [exact Hset|]. rewrite Hinit. reflexivity.
Defined.

(** Witness of [taint_models_all]: tainting [m] after the first [init]. *)
Lemma taint_models_all_witness :
  let s := run Call_init Sim.fresh in
  reachable s
  ∧ (∀ n, n ∈ ["m"] → n ∉ available_models (taint_models ["m"] s).1)
  ∧ available_models (taint_available_models s).1 = every_second (tail (available_models s)).
Proof.
  assert (Hr : reachable (run Call_init Sim.fresh)).
  { apply reachable_call. exact (reachable_new _ _ _ _ _ _ _ fresh_new). }
  split; [exact Hr|].
  split.
  - exact (proj1 (proj1 (taint_models_all ["m"] _ Hr))).
  - exact (proj1 (proj2 (proj2 (taint_models_all ["m"] _ Hr)))).
Defined.

(** Four names listed as available and [taint_models] called on that very
    list: the second and the fourth name stay listed. *)
Example taint_available_models_example :
  let s := set_available_models ["a"; "b"; "c"; "d"] Sim.fresh in
  let r := taint_available_models s in
  r.2 = Ret tt
  ∧ available_models r.1 = ["b"; "d"]
  ∧ tainted_models r.1 = ["a"; "c"]
  ∧ available_models (taint_models ["a"; "b"; "c"; "d"] s).1 = [].
Proof. by_evaluation. Qed.

(** Witness of [validate_model_true_iff]: the model [M] with its file in
    place. *)
Lemma validate_model_true_iff_witness :
  let e := ModelEntry "ckpt" [Sim.m_bin] [Sim.m_fetch] in
  models Cases.in_place !! "M" = Some e
  ∧ (validate_model "M" Cases.in_place).2 = Ret true.
Proof.
  assert (He : models Cases.in_place !! "M"
               = Some (ModelEntry "ckpt" [Sim.m_bin] [Sim.m_fetch])) by (vm_compute; reflexivity).
  split; [exact He|].
  apply (proj2 (validate_model_true_iff "M" _ Cases.in_place He)).
  intros f Hf. apply list_elem_of_singleton in Hf as ->.
  split; [vm_compute; reflexivity|].
  intros h Hh. exists [x61; x62; x63]. split; [vm_compute; reflexivity|].
  vm_compute in Hh. injection Hh as <-. vm_compute. reflexivity.
Defined.

(** Witness of [validate_model_implies_available]: the same model. *)
Lemma validate_model_implies_available_witness :
  let s' := (validate_model "M" Cases.in_place).1 in
  validate_model "M" Cases.in_place = (s', Ret true)
  ∧ check_model_available "M" s' = (s', Ret true)
  ∧ "M" ∈ available_models (init s').1.
Proof.
  assert (Hrun : validate_model "M" Cases.in_place
                 = ((validate_model "M" Cases.in_place).1, Ret true))
    by (vm_compute; reflexivity).
  split; [exact Hrun|].
  exact (proj2 (validate_model_implies_available "M" _ _ Hrun)).
Defined.

(** Witness of [download_model_false_keeps_lists]: the fetched file is in
    place, but the file under the catalog path has another content. *)
Lemma download_model_false_keeps_lists_witness :
  let s' := (download_model "M" Cases.stale).1 in
  download_model "M" Cases.stale = (s', Ret false)
  ∧ http_requests (trace s') = ["http://x/m.bin"]
  ∧ frame Cases.stale s' ∧ "M" ∉ available_models s'.
Proof.
  assert (Hrun : download_model "M" Cases.stale
                 = ((download_model "M" Cases.stale).1, Ret false))
    by (vm_compute; reflexivity).
  split; [exact Hrun|]. split; [vm_compute; reflexivity|].
  exact (download_model_false_keeps_lists "M" _ _ Hrun).
Defined.

(** Witness of [download_model_diffusers_recipe]. *)
Lemma download_model_diffusers_recipe_witness :
  let e := ModelEntry "diffusers" [] [Sim.m_fetch] in
  ("D" ∉ available_models Cases.diffusers_recipe)
  ∧ models Cases.diffusers_recipe !! "D" = Some e
  ∧ download_model "D" Cases.diffusers_recipe = (Cases.diffusers_recipe, Raise IndexError).
Proof.
  assert (Hna : "D" ∉ available_models Cases.diffusers_recipe)
    by (intros Hin; inversion Hin).
  assert (He : models Cases.diffusers_recipe !! "D"
               = Some (ModelEntry "diffusers" [] [Sim.m_fetch])) by (vm_compute; reflexivity).
  split; [exact Hna|]. split; [exact He|].
  exact (download_model_diffusers_recipe "D" _ Sim.m_fetch [] _ Hna He eq_refl eq_refl eq_refl).
Defined.

(** Witness of [download_dependency_first_step]: a first step without
    [file_name]. *)
Lemma download_dependency_first_step_witness :
  ("dep" ∉ available_dependencies Cases.nameless_dependency)
  ∧ dependencies Cases.nameless_dependency !! "dep" = Some Cases.nameless
  ∧ download_dependency "dep" Cases.nameless_dependency
    = (Cases.nameless_dependency, Raise (UnboundLocalError "download_name")).
Proof.
  assert (Hna : "dep" ∉ available_dependencies Cases.nameless_dependency)
    by (intros Hin; inversion Hin).
  assert (He : dependencies Cases.nameless_dependency !! "dep" = Some Cases.nameless)
    by (vm_compute; reflexivity).
  split; [exact Hna|]. split; [exact He|].
  refine (proj2 (download_dependency_first_step "dep" _ Sim.m_fetch [] _ Hna He eq_refl eq_refl)
            _ eq_refl).
  discriminate.
Defined.

(** Witness of [download_all_dependencies_nothing_to_do]: the one
    dependency is installed. *)
Lemma download_all_dependencies_nothing_to_do_witness :
  (∀ name e, dependencies Cases.installed_dependency !! name = Some e →
     files_present Cases.installed_dependency (d_files e) = true)
  ∧ ∃ t, download_all_dependencies Cases.installed_dependency
         = (set_trace (trace Cases.installed_dependency ++ t) Cases.installed_dependency,
            Ret true)
       ∧ http_requests t = []
       ∧ length t = size (dependencies Cases.installed_dependency).
Proof.
  assert (Hall : ∀ name e, dependencies Cases.installed_dependency !! name = Some e →
            files_present Cases.installed_dependency (d_files e) = true).
  { intros name e He.
    change (({[ "dep" := Cases.nameless ]} : gmap string dependency_entry) !! name = Some e) in He.
    apply lookup_singleton_Some in He as [_ <-]. vm_compute. reflexivity. }
  split; [exact Hall|].
  exact (download_all_dependencies_nothing_to_do Cases.installed_dependency Hall).
Defined.

(** Witness of [download_model_nothing_to_fetch]: the model [M] with its
    file in place, before the first [init]. *)
Lemma download_model_nothing_to_fetch_witness :
  let r := download_model "M" Cases.in_place in
  ("M" ∉ available_models Cases.in_place)
  ∧ ("M" ∉ tainted_models Cases.in_place)
  ∧ (validate_model "M" Cases.in_place).2 = Ret true
  ∧ r.2 = Ret true
  ∧ http_requests (trace r.1) = http_requests (trace Cases.in_place)
  ∧ world r.1 = world Cases.in_place
  ∧ "M" ∈ available_models r.1.
Proof.
  assert (Hna : "M" ∉ available_models Cases.in_place) by (intros Hin; inversion Hin).
  assert (Hnt : "M" ∉ tainted_models Cases.in_place) by (intros Hin; inversion Hin).
  assert (He : models Cases.in_place !! "M"
               = Some (ModelEntry "ckpt" [Sim.m_bin] [Sim.m_fetch])) by (vm_compute; reflexivity).
  assert (Hv : (validate_model "M" Cases.in_place).2 = Ret true) by (vm_compute; reflexivity).
  assert (Hsteps : ∀ k d,
            m_download (ModelEntry "ckpt" [Sim.m_bin] [Sim.m_fetch]) !! k = Some d →
            is_fetch_step d = true ∧ hf_auth_key d = false ∧ file_path d = None
            ∧ ∃ f, resolved_files (ModelEntry "ckpt" [Sim.m_bin] [Sim.m_fetch]) !! k = Some f
                ∧ path_exists (world Cases.in_place)
                    (PosixPath.join (model_base_path Cases.in_place)
                       (PosixPath.join (model_base_path Cases.in_place) (path f))) = true).
  { intros [|k] d Hd; [|destruct k; discriminate Hd].
    injection Hd as <-. repeat split. exists Sim.m_bin. split; [reflexivity|].
    vm_compute. reflexivity. }
  split; [exact Hna|]. split; [exact Hnt|]. split; [exact Hv|].
  exact (download_model_nothing_to_fetch "M" _ Cases.in_place Hna Hnt He Hsteps Hv).
Defined.

(** Witness of [download_all_nothing_to_do]: no dependency, and the one
    flagged model has its file in place. *)
Lemma download_all_nothing_to_do_witness :
  (∀ name e, models Cases.in_place !! name = Some e →
     Cases.example_eq (Cases.example_get e "download_all") (Some "True") = true →
     files_present Cases.in_place (resolved_files e) = true)
  ∧ ∃ t, download_all Cases.example_eq Cases.example_get (Some "True") Cases.in_place
         = (set_trace (trace Cases.in_place ++ t) Cases.in_place, Ret true)
       ∧ http_requests t = [].
Proof.
  assert (Hdeps : ∀ name e, dependencies Cases.in_place !! name = Some e →
            files_present Cases.in_place (d_files e) = true).
  { intros name e He.
    change ((∅ : gmap string dependency_entry) !! name = Some e) in He.
    by rewrite lookup_empty in He. }
  assert (Hmodels : ∀ name e, models Cases.in_place !! name = Some e →
            Cases.example_eq (Cases.example_get e "download_all") (Some "True") = true →
            files_present Cases.in_place (resolved_files e) = true).
  { intros name e He _.
    change (({[ "M" := ModelEntry "ckpt" [Sim.m_bin] [Sim.m_fetch] ]}
             : gmap string model_entry) !! name = Some e) in He.
    apply lookup_singleton_Some in He as [_ <-]. vm_compute. reflexivity. }
  split; [exact Hmodels|].
  exact (download_all_nothing_to_do Cases.example_eq Cases.example_get (Some "True")
           Cases.in_place Hdeps Hmodels).
Defined.

(** The flag decides: [M] is flagged and listed, and a constraint on
    [type] that no entry meets leaves nothing. *)
Example get_filtered_model_names_example :
  get_filtered_model_names Cases.example_eq Cases.example_get
    [("download_all", Some "True")] Cases.in_place = (Cases.in_place, Ret ["M"])
  ∧ get_filtered_model_names Cases.example_eq Cases.example_get
      [("download_all", Some "True"); ("type", Some "diffusers")] Cases.in_place
    = (Cases.in_place, Ret []).
Proof. by_evaluation. Qed.

(** Witness of [post_process_rewrites_catalog]: the stored target [tmp]
    becomes [/base/tmp]. *)
Lemma post_process_rewrites_catalog_witness :
  let s' := (run_post_process "G" 0 0 Cases.cleanup Cases.with_git_model).1 in
  models Cases.with_git_model !! "G" = Some Cases.git_model
  ∧ run_post_process "G" 0 0 Cases.cleanup Cases.with_git_model = (s', Ret tt)
  ∧ ∃ e' d', models s' !! "G" = Some e'
      ∧ m_download e' !! 0 = Some d'
      ∧ post_process_key d' =
          Some (map (λ pp, PostProcess
                             (PosixPath.join (model_base_path Cases.with_git_model)
                                <$> delete_ pp)) Cases.cleanup).
Proof.
  assert (He : models Cases.with_git_model !! "G" = Some Cases.git_model)
    by (vm_compute; reflexivity).
  assert (Hrun : run_post_process "G" 0 0 Cases.cleanup Cases.with_git_model
                 = ((run_post_process "G" 0 0 Cases.cleanup Cases.with_git_model).1, Ret tt))
    by (vm_compute; reflexivity).
  split; [exact He|]. split; [exact Hrun|].
  exact (post_process_rewrites_catalog "G" 0 Cases.cleanup Cases.with_git_model _
           Cases.git_model Cases.git_cleanup_step He eq_refl eq_refl Hrun).
Defined.

(** [download_model] of the git model leaves the joined target in the
    catalog. *)
Example post_process_example :
  (post_process_key <$>
     (m_download <$> models (download_model "G" Cases.with_git_model).1 !! "G") ≫= (.!! 0))
  = Some (Some [PostProcess (Some "/base/tmp")]).
Proof. by_evaluation. Qed.
